(** * The PTY bridge [resources/pty-helper.py]

    A shallow embedding of the helper's [main] function.  The helper is
    nothing but a sequence of calls into the operating system, so the
    embedding is a small monad: a computation extends the log of the calls
    made so far and ends in an outcome (a value, a raised exception, a
    replaced process image, or a loop that is still running).  What each
    call answers is given by a [World], a function of the moment at
    which the call is made and of the call itself. *)

From Stdlib Require Import ZArith NArith Lia String.
From Stdlib.Strings Require Import Byte.
From stdpp Require Import base numbers list strings gmap.

Local Open Scope Z_scope.

(** ** Data *)

Abbreviation bytes := (list byte).

(** The error numbers: those the program names or is likely to meet, by
    name, and any other one by its number. *)
Inductive errno : Set :=
| EPERM | ESRCH | EINTR | EIO | EBADF | EAGAIN | EPIPE | EINVAL | ENOTTY
| EOTHER (code : Z).

#[global] Instance errno_eq_dec : EqDecision errno.
Proof. solve_decision. Defined.

(** Python exceptions that can travel through [main]; [Exception] stands
    for an exception of any class the program does not name. *)
Inductive exn : Type :=
| OSError (e : errno)
| KeyboardInterrupt
| SystemExit (status : Z)
| IndexError
| Exception (class : string).

(** [ProcessLookupError] is the subclass of [OSError] that Python raises
    for [ESRCH]. *)
Definition ProcessLookupError : exn := OSError ESRCH.

Definition is_OSError (x : exn) : bool :=
  match x with OSError _ => true | _ => false end.

Definition is_ProcessLookupError (x : exn) : bool :=
  match x with OSError ESRCH => true | _ => false end.

Definition is_KeyboardInterrupt (x : exn) : bool :=
  match x with KeyboardInterrupt => true | _ => false end.

(** The only [ioctl] request the program issues. *)
Inductive request : Set := TIOCSWINSZ.

(** The calls [main] makes, indexed by the type of what they return.
    [os_execve] returning stands for the process image having been
    replaced: the program does not run any further. *)
Inductive call : Type -> Type :=
| print_stderr (msg : string) : call unit
| pty_fork : call (Z * Z)
| os_execve (path : string) (argv : list string) (env : gmap string string) : call unit
| select_select (rlist wlist xlist : list Z) : call (list Z * list Z * list Z)
| os_read (fd : Z) (n : Z) : call bytes
| stdout_buffer_write (buf : bytes) : call nat
| stdout_buffer_flush : call unit
| os_write (fd : Z) (buf : bytes) : call nat
| fcntl_ioctl (fd : Z) (req : request) (arg : bytes) : call bytes
| os_kill (pid : Z) (sig : Z) : call unit
| os_close (fd : Z) : call unit.

(** A call either raises or returns. *)
Definition result (T : Type) : Type := exn + T.

Inductive event : Type :=
| Ev {T : Type} (c : call T) (r : result T).

Abbreviation trace := (list event).

(** The world answers the [n]-th call of a run. *)
Definition World : Type := forall T : Type, nat -> call T -> result T.

(** ** The monad *)

Inductive outcome (A : Type) : Type :=
| Ret (a : A)
| Raise (e : exn)
| Replaced
| Running.

Arguments Ret {A} a.
Arguments Raise {A} e.
Arguments Replaced {A}.
Arguments Running {A}.

Definition M (A : Type) : Type := trace -> trace * outcome A.

#[global] Instance M_ret : MRet M := fun A a t => (t, Ret a).

#[global] Instance M_bind : MBind M := fun A B f m t =>
  match m t with
  | (t', Ret a) => f a t'
  | (t', Raise e) => (t', Raise e)
  | (t', Replaced) => (t', Replaced)
  | (t', Running) => (t', Running)
  end.

Definition raise {A : Type} (e : exn) : M A := fun t => (t, Raise e).

Definition replaced {A : Type} : M A := fun t => (t, Replaced).

Definition running {A : Type} : M A := fun t => (t, Running).

(** [try: m  except <clause> : h]; the handler answers [None] for an
    exception its clause does not match. *)
Definition try_except {A : Type} (m : M A) (h : exn -> option (M A)) : M A :=
  fun t =>
    match m t with
    | (t', Raise e) =>
        match h e with
        | Some k => k t'
        | None => (t', Raise e)
        end
    | other => other
    end.

(** [try: m  finally: f].  The [finally] block runs when [m] returned or
    raised; an exception of [f] replaces the pending one. *)
Definition try_finally {A : Type} (m : M A) (f : M unit) : M A :=
  fun t =>
    match m t with
    | (t', Ret a) => (f ;; mret a) t'
    | (t', Raise e) => (f ;; raise e) t'
    | other => other
    end.

(** [l[i]] of a Python list. *)
Definition index {A : Type} (l : list A) (i : nat) : M A :=
  match l !! i with
  | Some x => mret x
  | None => raise IndexError
  end.

(** ** The program *)

(** How a block of the loop body leaves: to the statement after it, to
    the next iteration, or out of the loop. *)
Inductive flow : Set := Next | Continue | Break.

Definition usage : string := "Usage: pty-helper.py <command> [args...]".

(** [except OSError as e] of the three blocks of the loop. *)
Definition retry_or_break {A : Type} (again fatal : A) (x : exn) : option (M A) :=
  match x with
  | OSError e =>
      Some (if bool_decide (e ∈ [EINTR; EAGAIN]) then mret again else mret fatal)
  | _ => None
  end.

Section Program.

Context (W : World).

Definition sys {T : Type} (c : call T) : M T := fun t =>
  let r := W T (length t) c in
  (t ++ [Ev c r], match r with inl e => Raise e | inr v => Ret v end).

(** [if fd in rfds:] *)
Definition on_master (fd : Z) : M flow :=
  try_except
    (buf ← sys (os_read fd 32768);
     if bool_decide (length buf = 0%nat) then mret Break
     else
       sys (stdout_buffer_write buf) ;;
       sys stdout_buffer_flush ;;
       mret Next)
    (fun x =>
       match x with
       | OSError e =>
           Some (if bool_decide (e ∈ [EINTR; EAGAIN]) then mret Continue
                 else if bool_decide (e = EIO) then mret Break
                 else mret Break)
       | _ => None
       end).

(** [if 0 in rfds:] *)
Definition on_stdin (fd : Z) : M flow :=
  try_except
    (buf ← sys (os_read 0 32768);
     if bool_decide (length buf = 0%nat) then mret Break
     else
       sys (os_write fd buf) ;;
       mret Next)
    (retry_or_break Continue Break).

(** [if 3 in rfds:]; the block may rebind [fds]. *)
Definition on_control (fd : Z) (fds : list Z) : M (flow * list Z) :=
  try_except
    (winsize ← sys (os_read 3 8);
     if bool_decide (length winsize = 0%nat) then mret (Next, [fd; 0])
     else if bool_decide (length winsize = 8%nat) then
       sys (fcntl_ioctl fd TIOCSWINSZ winsize) ;;
       mret (Next, fds)
     else mret (Next, fds))
    (retry_or_break (Continue, fds) (Break, fds)).

(** The three [if] statements of the loop body, for the descriptors
    [select] reported. *)
Definition master_block (fd : Z) (rfds : list Z) : M flow :=
  if bool_decide (fd ∈ rfds) then on_master fd else mret Next.

Definition stdin_block (fd : Z) (rfds : list Z) : M flow :=
  if bool_decide (0 ∈ rfds) then on_stdin fd else mret Next.

Definition control_block (fd : Z) (fds rfds : list Z) : M (flow * list Z) :=
  if bool_decide (3 ∈ rfds) then on_control fd fds else mret (Next, fds).

(** The loop body after [select]: a block that leaves with [continue]
    or [break] skips the blocks after it. *)
Definition dispatch (fd : Z) (fds rfds : list Z) : M (flow * list Z) :=
  f1 ← master_block fd rfds;
  match f1 with
  | Next =>
      f2 ← stdin_block fd rfds;
      match f2 with
      | Next => control_block fd fds rfds
      | f => mret (f, fds)
      end
  | f => mret (f, fds)
  end.

(** One turn of [while True:]. *)
Definition iteration (fd : Z) (fds : list Z) : M (flow * list Z) :=
  '(rfds, _, _) ← sys (select_select fds [] []);
  dispatch fd fds rfds.

(** [while True:], for at most [fuel] turns. *)
Fixpoint loop (fuel : nat) (fd : Z) (fds : list Z) : M unit :=
  match fuel with
  | O => running
  | S fuel' =>
      '(f, fds') ← iteration fd fds;
      match f with
      | Break => mret tt
      | _ => loop fuel' fd fds'
      end
  end.

(** The [finally] block. *)
Definition cleanup (pid fd : Z) : M unit :=
  try_except (sys (os_kill pid 9))
    (fun x => if is_ProcessLookupError x then Some (mret tt) else None) ;;
  try_except (sys (os_close fd))
    (fun x => if is_OSError x then Some (mret tt) else None).

(** The [try] statement around the loop; [fds] is the watch set the
    loop is entered with. *)
Definition session (fuel : nat) (pid fd : Z) (fds : list Z) : M unit :=
  try_finally
    (try_except (loop fuel fd fds)
       (fun x => if is_KeyboardInterrupt x then Some (mret tt) else None))
    (cleanup pid fd).

Definition child_env (environ : gmap string string) : gmap string string :=
  <["FORCE_COLOR" := "1"]> (<["TERM" := "xterm-256color"]> environ).

Definition main (argv : list string) (environ : gmap string string)
    (fuel : nat) : M unit :=
  (if bool_decide (length argv < 2)%nat then
     sys (print_stderr usage) ;;
     raise (SystemExit 1)
   else mret tt) ;;
  cmd_path ← index argv 1;
  let cmd_argv := drop 1 argv in
  let env := child_env environ in
  '(pid, fd) ← sys pty_fork;
  (if bool_decide (pid = 0) then
     sys (os_execve cmd_path cmd_argv env) ;;
     replaced
   else mret tt) ;;
  let fds := [fd; 0; 3] in
  session fuel pid fd fds.

End Program.

(** ** What a trace shows *)

Definition is_kill (ev : event) : bool :=
  match ev with
  | Ev (os_kill _ _) _ => true
  | _ => false
  end.

Definition is_close (ev : event) : bool :=
  match ev with
  | Ev (os_close _) _ => true
  | _ => false
  end.

Definition is_fork (ev : event) : bool :=
  match ev with
  | Ev pty_fork _ => true
  | _ => false
  end.

Definition count (p : event -> bool) (t : trace) : nat :=
  length (filter (fun ev => p ev = true) t).

(** The watch set handed to [select], when the event is a [select]. *)
Definition watched (ev : event) : option (list Z) :=
  match ev with
  | Ev (select_select rlist _ _) _ => Some rlist
  | _ => None
  end.

(** The watch sets of the successive turns of the loop. *)
Definition watch_sets (t : trace) : list (list Z) := omap watched t.

(** The bytes a read of descriptor 0 handed to the program. *)
Definition delivered_by (ev : event) : bytes :=
  match ev with
  | Ev (os_read 0 _) (inr b) => b
  | _ => []
  end.

Definition delivered (t : trace) : bytes := t ≫= delivered_by.

(** The bytes descriptor [fd] took from a write: [os.write] answers how
    many bytes of the buffer it took. *)
Definition taken_by (fd : Z) (ev : event) : bytes :=
  match ev with
  | Ev (os_write fd' buf) (inr n) => if bool_decide (fd' = fd) then take n buf else []
  | _ => []
  end.

Definition forwarded (fd : Z) (t : trace) : bytes := t ≫= taken_by fd.

(** A write to a descriptor that took its whole buffer; every event that
    is no such write counts as one. *)
Definition whole_write (ev : event) : bool :=
  match ev with
  | Ev (os_write _ buf) (inr n) => bool_decide (length buf <= n)%nat
  | Ev (os_write _ _) (inl _) => false
  | _ => true
  end.





Definition is_flush (ev : event) : bool :=
  match ev with
  | Ev stdout_buffer_flush _ => true
  | _ => false
  end.

Definition is_returned_show (ev : event) : bool :=
  match ev with
  | Ev (stdout_buffer_write _) (inr _) => true
  | _ => false
  end.

(** Every write to the output stream that returned is followed at once by
    a flush. *)
Fixpoint flushed (t : trace) : bool :=
  match t with
  | [] => true
  | ev :: rest =>
      (if is_returned_show ev then
         match rest with
         | next :: _ => is_flush next
         | [] => false
         end
       else true) && flushed rest
  end.

Definition is_select (ev : event) : bool :=
  match ev with
  | Ev (select_select _ _ _) _ => true
  | _ => false
  end.

(** The exception a call raised, when it raised one. *)
Definition raised_by (ev : event) : option exn :=
  match ev with
  | Ev _ (inl e) => Some e
  | _ => None
  end.

(** The calls of the loop on master [fd]: [select] for reading only, reads
    of a chunk from the master and from descriptor 0, reads of 8 bytes from
    descriptor 3, the output stream, writes of a buffer that is not empty
    to the master, and the window-size request on the master with 8
    bytes. *)
Definition loop_call (fd : Z) (ev : event) : bool :=
  match ev with
  | Ev (select_select _ wl xl) _ => bool_decide (wl = [] /\ xl = [])
  | Ev (os_read fd' n) _ =>
      bool_decide ((fd' = fd /\ n = 32768) \/ (fd' = 0 /\ n = 32768) \/
                   (fd' = 3 /\ n = 8))
  | Ev (stdout_buffer_write _) _ => true
  | Ev stdout_buffer_flush _ => true
  | Ev (os_write fd' buf) _ => bool_decide (fd' = fd /\ length buf <> 0%nat)
  | Ev (fcntl_ioctl fd' TIOCSWINSZ arg) _ =>
      bool_decide (fd' = fd /\ length arg = 8%nat)
  | _ => false
  end.

(** The calls of the [try] statement: those of the loop, the kill of the
    child and the close of the master. *)
Definition session_call (pid fd : Z) (ev : event) : bool :=
  match ev with
  | Ev (os_kill pid' sig) _ => bool_decide (pid' = pid /\ sig = 9)
  | Ev (os_close fd') _ => bool_decide (fd' = fd)
  | _ => loop_call fd ev
  end.

(** [except OSError as e] of the loop: where the handler goes. *)
Definition handled (e : errno) : flow :=
  if bool_decide (e = EINTR \/ e = EAGAIN) then Continue else Break.

(** ** The window-size record *)

(** Modelled from the spec: the window-size record of the kernel, which is
    no code of this program.  It is four unsigned 16-bit fields in the
    byte order of the platform: rows, columns and two further fields. *)
Inductive byteorder : Set := LittleEndian | BigEndian.

Record winsize : Set := Winsize {
  ws_row : N;
  ws_col : N;
  ws_xpixel : N;
  ws_ypixel : N
}.

Definition byte_of (n : N) : byte :=
  match Byte.of_N (n mod 256) with
  | Some b => b
  | None => x00
  end.

Definition pack_u16 (bo : byteorder) (n : N) : bytes :=
  match bo with
  | LittleEndian => [byte_of n; byte_of (n / 256)]
  | BigEndian => [byte_of (n / 256); byte_of n]
  end.

Definition unpack_u16 (bo : byteorder) (b0 b1 : byte) : N :=
  match bo with
  | LittleEndian => (Byte.to_N b0 + 256 * Byte.to_N b1)%N
  | BigEndian => (256 * Byte.to_N b0 + Byte.to_N b1)%N
  end.

Definition pack_winsize (bo : byteorder) (ws : winsize) : bytes :=
  pack_u16 bo (ws_row ws) ++ pack_u16 bo (ws_col ws) ++
  pack_u16 bo (ws_xpixel ws) ++ pack_u16 bo (ws_ypixel ws).

Definition unpack_winsize (bo : byteorder) (buf : bytes) : option winsize :=
  match buf with
  | [r0; r1; c0; c1; x0; x1; y0; y1] =>
      Some (Winsize (unpack_u16 bo r0 r1) (unpack_u16 bo c0 c1)
              (unpack_u16 bo x0 x1) (unpack_u16 bo y0 y1))
  | _ => None
  end.

(** Modelled from the spec: a [TIOCSWINSZ] request that returns sets the
    window size of the terminal behind the descriptor to the record it
    was handed. *)
Definition resize_of (bo : byteorder) (fd : Z) (ev : event) : option winsize :=
  match ev with
  | Ev (fcntl_ioctl fd' TIOCSWINSZ arg) (inr _) =>
      if bool_decide (fd' = fd) then unpack_winsize bo arg else None
  | _ => None
  end.

(** The window size the terminal behind [fd] has after a trace, when the
    trace set one. *)
Definition window_size (bo : byteorder) (fd : Z) (t : trace) : option winsize :=
  last (omap (resize_of bo fd) t).

(** ** Scripted worlds

    Concrete worlds for running the program: the [n]-th call gets the
    [n]-th answer of a script, and a call beyond the script (or an answer
    of the wrong kind) the answer of a world where nothing ever fails,
    nothing is ready and every stream is at its end. *)

Definition calm : forall T : Type, call T -> result T := fun T c =>
  match c in call T return result T with
  | print_stderr _ => inr tt
  | pty_fork => inr (7, 5)
  | os_execve _ _ _ => inr tt
  | select_select _ _ _ => inr ([], [], [])
  | os_read _ _ => inr []
  | stdout_buffer_write buf => inr (length buf)
  | stdout_buffer_flush => inr tt
  | os_write _ buf => inr (length buf)
  | fcntl_ioctl _ _ arg => inr arg
  | os_kill _ _ => inr tt
  | os_close _ => inr tt
  end.

Inductive answer : Type :=
| Forked (pid fd : Z)
| Ready (rfds : list Z)
| Data (b : bytes)
| Wrote (n : nat)
| Done
| Fails (e : exn).

Definition reply (a : answer) : forall T : Type, call T -> result T := fun T c =>
  match a with
  | Fails e => inl e
  | Forked pid fd =>
      match c in call T return result T with
      | pty_fork => inr (pid, fd)
      | c' => calm _ c'
      end
  | Ready rfds =>
      match c in call T return result T with
      | select_select _ _ _ => inr (rfds, [], [])
      | c' => calm _ c'
      end
  | Data b =>
      match c in call T return result T with
      | os_read _ _ => inr b
      | c' => calm _ c'
      end
  | Wrote n =>
      match c in call T return result T with
      | os_write _ _ => inr n
      | stdout_buffer_write _ => inr n
      | c' => calm _ c'
      end
  | Done => calm T c
  end.

Definition scripted (script : list answer) : World := fun T n c =>
  match script !! n with
  | Some a => reply a T c
  | None => calm T c
  end.

(** The scripts of the runs looked at below. *)

Definition short_write : list answer :=
  [Forked 7 5; Ready [0]; Data ["a"; "b"]%byte; Wrote 1; Ready [0]; Data []].

Definition started : trace := [Ev pty_fork (inr (7, 5))].

Definition master_eof : list answer := [Forked 7 5; Ready [5]; Data []].

Definition stdin_eof : list answer :=
  [Forked 7 5; Ready [0]; Data []; Fails ProcessLookupError; Fails (OSError EBADF)].

Definition master_interrupted : list answer :=
  [Forked 7 5; Ready [5]; Fails (OSError EINTR)].

Definition control_closed : list answer :=
  [Forked 7 5; Ready [3]; Data [];
   Ready [5]; Data ["h"; "i"]%byte; Wrote 2; Done;
   Ready [0]; Data ["l"; "s"]%byte; Wrote 2].

Definition resized : list answer :=
  [Forked 7 5; Ready [3]; Data (pack_winsize LittleEndian (Winsize 24 80 640 480))].

Definition partial_record : list answer :=
  [Forked 7 5; Ready [3]; Data ["024"; "000"; "P"]%byte].

Definition kill_refused : list answer := [Fails (OSError EPERM)].

Definition output_closed : list answer :=
  [Forked 7 5; Ready [5]; Data ["h"; "i"]%byte; Fails (OSError EPIPE)].

Definition input_blocked : list answer :=
  [Forked 7 5; Ready [0]; Data ["l"; "s"]%byte; Fails (OSError EAGAIN)].

Definition resize_refused : list answer :=
  [Forked 7 5; Ready [3]; Data (pack_winsize LittleEndian (Winsize 24 80 0 0));
   Fails (OSError ENOTTY)].

Definition select_refused : list answer := [Forked 7 5; Fails (OSError EBADF)].

Definition exec_refused : list answer := [Forked 0 5; Fails (OSError EPERM)].

Definition all_ready : list answer :=
  [Forked 7 5; Ready [5; 0; 3]; Data ["h"; "i"]%byte; Wrote 2; Done;
   Data ["l"; "s"]%byte; Wrote 2;
   Data (pack_winsize LittleEndian (Winsize 24 80 0 0)); Done].

Definition master_three : list answer :=
  [Forked 7 3; Ready [3]; Data ["h"; "i"]%byte; Wrote 2; Done;
   Data ["0"; "1"; "2"; "3"; "4"; "5"; "6"; "7"]%byte; Done].

Definition nothing_ready : list answer := [Forked 7 5; Ready []].

(** ** Running the pieces *)

Lemma sys_run (W : World) {T : Type} (c : call T) (t : trace) :
  sys W c t =
    (t ++ [Ev c (W T (length t) c)],
     match W T (length t) c with inl e => Raise e | inr v => Ret v end).
Proof. reflexivity. Qed.

Lemma length_snoc (t : trace) (ev : event) : length (t ++ [ev]) = S (length t).
Proof. rewrite length_app. simpl. lia. Qed.

Lemma count_app p (t1 t2 : trace) : count p (t1 ++ t2) = (count p t1 + count p t2)%nat.
Proof. unfold count. by rewrite filter_app, length_app. Qed.

Lemma count_snoc p (t : trace) (ev : event) :
  count p (t ++ [ev]) = (count p t + if p ev then 1 else 0)%nat.
Proof.
  rewrite count_app. f_equal. unfold count.
  rewrite filter_cons, filter_nil. destruct (p ev); by case_decide.
Qed.

Ltac run_step :=
  unfold iteration, dispatch, master_block, stdin_block, control_block,
    on_master, on_stdin, on_control, retry_or_break,
    cleanup, try_except, try_finally, sys, raise, running, replaced,
    mbind, M_bind, mret, M_ret in *.

(** Every path through a piece of the program: unfold it and split on
    each answer of the world and each test. *)
Ltac paths :=
  run_step; cbn beta;
  repeat (first
    [ rewrite length_snoc
    | progress cbn beta iota zeta
    | case_match; simplify_eq ]);
  rewrite ?length_snoc in *;
  repeat match goal with
    | H : _ = inr _ |- _ => progress rewrite H
    | H : _ = inl _ |- _ => progress rewrite H
    end.

(** ** Start-up *)

Section Startup.

Context (W : World).

(** C7.  Started without a command argument, [main] prints the usage
    message on the error stream and does nothing else: no process is
    forked, and once the message is printed the program leaves through
    [sys.exit(1)]. *)
Theorem usage_failure (argv : list string) (environ : gmap string string)
    (fuel : nat) :
  (length argv < 2)%nat ->
  let p := W unit 0%nat (print_stderr usage) in
  let run := main W argv environ fuel [] in
  run.1 = [Ev (print_stderr usage) p] /\
  count is_fork run.1 = 0%nat /\
  (p = inr tt -> run.2 = Raise (SystemExit 1)).
Proof.
  intros Hlen p run. subst p run. unfold main.
  rewrite bool_decide_eq_true_2 by done.
  run_step. simpl.
  destruct (W unit 0%nat (print_stderr usage)) as [e|[]]; simpl;
    repeat split; done.
Qed.

(** C8.  Started with a command argument, the process in which
    [pty.fork] answers 0 (the child) calls [execve] next, and nothing
    after it: the path is the command argument, the argument vector is
    the command argument followed by the remaining arguments, and the
    environment is the inherited one except that [TERM] is
    [xterm-256color] and [FORCE_COLOR] is [1]. *)
Theorem child_launch (argv : list string) (environ : gmap string string)
    (fuel : nat) (cmd_path : string) (fd : Z) :
  argv !! 1%nat = Some cmd_path ->
  W (Z * Z)%type 0%nat pty_fork = inr (0, fd) ->
  exists (cmd_argv : list string) (env : gmap string string) (r : result unit),
    (main W argv environ fuel []).1 =
      [Ev pty_fork (inr (0, fd)); Ev (os_execve cmd_path cmd_argv env) r] /\
    cmd_argv = cmd_path :: drop 2 argv /\
    cmd_argv !! 0%nat = Some cmd_path /\
    env !! "TERM" = Some "xterm-256color" /\
    env !! "FORCE_COLOR" = Some "1" /\
    (forall k : string, k <> "TERM" -> k <> "FORCE_COLOR" -> env !! k = environ !! k).
Proof.
  intros Hcmd Hfork.
  assert (Hlen : ~ (length argv < 2)%nat).
  { apply lookup_lt_Some in Hcmd. lia. }
  exists (drop 1 argv), (child_env environ).
  exists (W unit 1%nat (os_execve cmd_path (drop 1 argv) (child_env environ))).
  assert (Hargv : drop 1 argv = cmd_path :: drop 2 argv).
  { destruct argv as [|a0 [|a1 rest]]; simplify_eq/=; done. }
  split; [|split; [done|split; [by rewrite Hargv|]]].
  - unfold main. rewrite bool_decide_eq_false_2 by done.
    unfold index. rewrite Hcmd.
    run_step. simpl. rewrite Hfork. simpl.
    by destruct (W unit 1%nat _) as [e|[]].
  - unfold child_env. split; [|split].
    + by rewrite lookup_insert_ne, lookup_insert_eq.
    + by rewrite lookup_insert_eq.
    + intros k Hk1 Hk2. by rewrite !lookup_insert_ne.
Qed.

(** In the process in which [pty.fork] answers the identifier of the
    child (the parent), the rest of [main] is the [try] statement, entered
    with the watch set [[fd; 0; 3]]. *)
Lemma main_parent (argv : list string) (environ : gmap string string)
    (fuel : nat) (cmd_path : string) (pid fd : Z) :
  argv !! 1%nat = Some cmd_path ->
  W (Z * Z)%type 0%nat pty_fork = inr (pid, fd) ->
  pid <> 0 ->
  main W argv environ fuel [] =
    session W fuel pid fd [fd; 0; 3] [Ev pty_fork (inr (pid, fd))].
Proof.
  intros Hcmd Hfork Hpid.
  assert (Hlen : ~ (length argv < 2)%nat).
  { apply lookup_lt_Some in Hcmd. lia. }
  unfold main. rewrite bool_decide_eq_false_2 by done.
  unfold index. rewrite Hcmd.
  unfold mbind, M_bind, mret, M_ret, sys. simpl. rewrite Hfork. simpl.
  by rewrite bool_decide_eq_false_2.
Qed.

End Startup.


(** ** Cleanup *)

Section Cleanup.

Context (W : World).

(** What the [finally] block does, in full. *)
Lemma cleanup_run (pid fd : Z) (t : trace) :
  let k := W unit (length t) (os_kill pid 9) in
  let c := W unit (S (length t)) (os_close fd) in
  let closing :=
    (t ++ [Ev (os_kill pid 9) k; Ev (os_close fd) c],
     match c with
     | inl e => if is_OSError e then Ret tt else Raise e
     | inr _ => Ret tt
     end) in
  cleanup W pid fd t =
    match k with
    | inl e =>
        if is_ProcessLookupError e then closing
        else (t ++ [Ev (os_kill pid 9) k], Raise e)
    | inr _ => closing
    end.
Proof.
  intros k c closing. subst k c closing.
  destruct (W unit (length t) (os_kill pid 9)) as [e|[]] eqn:Hk;
    [destruct (is_ProcessLookupError e) eqn:He|];
    (destruct (W unit (S (length t)) (os_close fd)) as [e'|[]] eqn:Hc;
      [destruct (is_OSError e') eqn:He'|]);
    run_step; cbn beta; rewrite Hk; cbn beta iota; rewrite ?He; cbn beta iota;
    try done;
    rewrite length_snoc, Hc, <- app_assoc; cbn beta iota; rewrite ?He'; done.
Qed.

(** C10.  The [finally] block closes the master descriptor exactly when
    [os.kill] returned or raised [ProcessLookupError]; any other
    exception of [os.kill] leaves the block at once, with nothing called
    after the kill. *)
Theorem close_needs_tolerated_kill (pid fd : Z) (t : trace) :
  let k := W unit (length t) (os_kill pid 9) in
  let run := cleanup W pid fd t in
  (count is_close run.1 = S (count is_close t) <->
     k = inr tt \/ k = inl ProcessLookupError) /\
  (forall e : exn, k = inl e -> e <> ProcessLookupError ->
     run = (t ++ [Ev (os_kill pid 9) k], Raise e) /\
     count is_close run.1 = count is_close t).
Proof.
  intros k run. subst k run. rewrite cleanup_run.
  destruct (W unit (length t) (os_kill pid 9)) as [e|[]] eqn:Hk; simpl.
  - destruct (is_ProcessLookupError e) eqn:He; simpl.
    + assert (e = ProcessLookupError) as ->.
      { destruct e as [[]| | | |]; simplify_eq/=; done. }
      split.
      * rewrite count_app. split; [by right|]. intros _. unfold count.
        simpl. lia.
      * intros e' [= <-] Hne. done.
    + split.
      * rewrite count_snoc. simpl. split; [lia|].
        intros [?|[= ->]]; simplify_eq/=.
      * intros e' [= <-] _. split; [done|]. rewrite count_snoc. simpl. lia.
  - split.
    + rewrite count_app. split; [by left|]. intros _. unfold count. simpl. lia.
    + intros e' ?. done.
Qed.

End Cleanup.

(** ** One turn of the loop, and the turns after it *)

Section Loop.

Context (W : World).

Lemma then_unit (m : M unit) (t : trace) : (m ;; mret tt) t = m t.
Proof.
  unfold mbind, M_bind, mret, M_ret.
  by destruct (m t) as [t' [[]| | |]].
Qed.

Lemma iteration_run (fd : Z) (fds : list Z) (t : trace) :
  iteration W fd fds t =
    match W _ (length t) (select_select fds [] []) with
    | inl e => (t ++ [Ev (select_select fds [] []) (inl e)], Raise e)
    | inr (rfds, wl, xl) =>
        dispatch W fd fds rfds
          (t ++ [Ev (select_select fds [] []) (inr (rfds, wl, xl))])
    end.
Proof.
  unfold iteration, sys, mbind, M_bind.
  by destruct (W _ (length t) (select_select fds [] [])) as [e|[[rfds wl] xl]].
Qed.

(** How the whole [try] statement goes on from the start of a turn,
    by the way the turn ends. *)
Lemma session_break (fuel : nat) (pid fd : Z) (fds fds' : list Z) (t t' : trace) :
  iteration W fd fds t = (t', Ret (Break, fds')) ->
  session W (S fuel) pid fd fds t = cleanup W pid fd t'.
Proof.
  intros Hit. unfold session, try_finally, try_except. simpl.
  unfold mbind at 1, M_bind at 1. rewrite Hit. apply then_unit.
Qed.

Lemma session_next (fuel : nat) (pid fd : Z) (fds fds' : list Z) (t t' : trace)
    (f : flow) :
  iteration W fd fds t = (t', Ret (f, fds')) ->
  f <> Break ->
  session W (S fuel) pid fd fds t = session W fuel pid fd fds' t'.
Proof.
  intros Hit Hf. unfold session, try_finally, try_except. simpl.
  unfold mbind at 1, M_bind at 1. rewrite Hit. by destruct f.
Qed.

Lemma session_raise (fuel : nat) (pid fd : Z) (fds : list Z) (t t' : trace)
    (e : exn) :
  iteration W fd fds t = (t', Raise e) ->
  session W (S fuel) pid fd fds t =
    if is_KeyboardInterrupt e then cleanup W pid fd t'
    else (cleanup W pid fd ;; raise e) t'.
Proof.
  intros Hit. unfold session, try_finally, try_except. simpl.
  unfold mbind at 1, M_bind at 1. rewrite Hit.
  destruct (is_KeyboardInterrupt e); [apply then_unit|done].
Qed.

(** The master block, when the read of the master raises [OSError]. *)
Lemma on_master_oserror (fd : Z) (t : trace) (e : errno) :
  W _ (length t) (os_read fd 32768) = inl (OSError e) ->
  on_master W fd t =
    (t ++ [Ev (os_read fd 32768) (inl (OSError e))],
     Ret (if bool_decide (e = EINTR \/ e = EAGAIN) then Continue else Break)).
Proof.
  intros Hr. run_step. cbn beta. rewrite Hr. cbn beta iota.
  destruct e; done.
Qed.

Lemma on_master_eof (fd : Z) (t : trace) :
  W _ (length t) (os_read fd 32768) = inr [] ->
  on_master W fd t = (t ++ [Ev (os_read fd 32768) (inr [])], Ret Break).
Proof. intros Hr. run_step. cbn beta. by rewrite Hr. Qed.

Lemma on_stdin_eof (fd : Z) (t : trace) :
  W _ (length t) (os_read 0 32768) = inr [] ->
  on_stdin W fd t = (t ++ [Ev (os_read 0 32768) (inr [])], Ret Break).
Proof. intros Hr. run_step. cbn beta. by rewrite Hr. Qed.

(** A block that leaves with [continue] or [break] ends the turn. *)
Lemma dispatch_master (fd : Z) (fds rfds : list Z) (t t' : trace) (f : flow) :
  master_block W fd rfds t = (t', Ret f) ->
  f <> Next ->
  dispatch W fd fds rfds t = (t', Ret (f, fds)).
Proof.
  intros Hm Hf. unfold dispatch, mbind, M_bind. rewrite Hm. by destruct f.
Qed.

Lemma dispatch_stdin (fd : Z) (fds rfds : list Z) (t t1 t' : trace) (f : flow) :
  master_block W fd rfds t = (t1, Ret Next) ->
  stdin_block W fd rfds t1 = (t', Ret f) ->
  f <> Next ->
  dispatch W fd fds rfds t = (t', Ret (f, fds)).
Proof.
  intros Hm Hs Hf. unfold dispatch, mbind, M_bind. rewrite Hm, Hs. by destruct f.
Qed.

Lemma dispatch_control (fd : Z) (fds rfds : list Z) (t t1 t2 : trace) :
  master_block W fd rfds t = (t1, Ret Next) ->
  stdin_block W fd rfds t1 = (t2, Ret Next) ->
  dispatch W fd fds rfds t = control_block W fd fds rfds t2.
Proof.
  intros Hm Hs. unfold dispatch, mbind, M_bind. by rewrite Hm, Hs.
Qed.

(** C6.  When the read of the master raises [OSError] at some turn of
    the loop: for [EINTR] and [EAGAIN] the program goes to the next turn,
    with the same watch set and without any other call; for [EIO], and
    for every other error number, the loop is left and the program goes
    straight to the [finally] block, printing nothing. *)
Theorem master_read_failure (fuel : nat) (pid fd : Z) (fds rfds wl xl : list Z)
    (t : trace) (e : errno) :
  W _ (length t) (select_select fds [] []) = inr (rfds, wl, xl) ->
  fd ∈ rfds ->
  W _ (S (length t)) (os_read fd 32768) = inl (OSError e) ->
  let t' := t ++ [Ev (select_select fds [] []) (inr (rfds, wl, xl));
                  Ev (os_read fd 32768) (inl (OSError e))] in
  (e = EINTR \/ e = EAGAIN ->
     session W (S fuel) pid fd fds t = session W fuel pid fd fds t') /\
  (e = EIO -> session W (S fuel) pid fd fds t = cleanup W pid fd t') /\
  (e <> EINTR -> e <> EAGAIN ->
     session W (S fuel) pid fd fds t = cleanup W pid fd t').
Proof.
  intros Hsel Hin Hread t'.
  assert (Hit : iteration W fd fds t =
            (t', Ret (if bool_decide (e = EINTR \/ e = EAGAIN)
                      then Continue else Break, fds))).
  { rewrite iteration_run, Hsel.
    apply dispatch_master; [|by case_bool_decide].
    unfold master_block. rewrite bool_decide_eq_true_2 by done.
    rewrite on_master_oserror with (e := e).
    - subst t'. by rewrite <- app_assoc.
    - by rewrite length_snoc. }
  split; [|split].
  - intros He. rewrite bool_decide_eq_true_2 in Hit by done.
    by eapply session_next.
  - intros ->. by eapply session_break.
  - intros H1 H2. rewrite bool_decide_eq_false_2 in Hit by tauto.
    by eapply session_break.
Qed.

(** C3.  A zero-length read of the master ends the loop, and so does a
    zero-length read of descriptor 0, which ends the whole loop and not
    only the forwarding of input: in both cases the rest of the run is
    the [finally] block. *)
Theorem zero_length_read_ends_loop (fuel : nat) (pid fd : Z)
    (fds rfds wl xl : list Z) (t : trace) :
  W _ (length t) (select_select fds [] []) = inr (rfds, wl, xl) ->
  let t1 := t ++ [Ev (select_select fds [] []) (inr (rfds, wl, xl))] in
  (fd ∈ rfds ->
   W _ (length t1) (os_read fd 32768) = inr [] ->
   loop W (S fuel) fd fds t = (t1 ++ [Ev (os_read fd 32768) (inr [])], Ret tt) /\
   session W (S fuel) pid fd fds t =
     cleanup W pid fd (t1 ++ [Ev (os_read fd 32768) (inr [])])) /\
  (forall t2 : trace,
     master_block W fd rfds t1 = (t2, Ret Next) ->
     0 ∈ rfds ->
     W _ (length t2) (os_read 0 32768) = inr [] ->
     loop W (S fuel) fd fds t = (t2 ++ [Ev (os_read 0 32768) (inr [])], Ret tt) /\
     session W (S fuel) pid fd fds t =
       cleanup W pid fd (t2 ++ [Ev (os_read 0 32768) (inr [])])).
Proof.
  intros Hsel t1. split.
  - intros Hin Hread.
    assert (Hit : iteration W fd fds t =
              (t1 ++ [Ev (os_read fd 32768) (inr [])], Ret (Break, fds))).
    { rewrite iteration_run, Hsel. apply dispatch_master; [|done].
      unfold master_block. rewrite bool_decide_eq_true_2 by done.
      by apply on_master_eof. }
    split; [|by eapply session_break].
    simpl. unfold mbind, M_bind. by rewrite Hit.
  - intros t2 Hm Hin Hread.
    assert (Hit : iteration W fd fds t =
              (t2 ++ [Ev (os_read 0 32768) (inr [])], Ret (Break, fds))).
    { rewrite iteration_run, Hsel. eapply dispatch_stdin; [done| |done].
      unfold stdin_block. rewrite bool_decide_eq_true_2 by done.
      by apply on_stdin_eof. }
    split; [|by eapply session_break].
    simpl. unfold mbind, M_bind. by rewrite Hit.
Qed.

End Loop.

(** ** The window-size record *)

Section Record.

Lemma to_N_byte_of (n : N) : Byte.to_N (byte_of n) = (n mod 256)%N.
Proof.
  unfold byte_of. destruct (Byte.of_N (n mod 256)) as [b|] eqn:Hb.
  - by apply Byte.to_of_N.
  - apply Byte.of_N_None_iff in Hb.
    pose proof (N.mod_lt n 256). lia.
Qed.

Lemma unpack_pack_u16 (bo : byteorder) (n : N) :
  (n < 65536)%N ->
  exists b0 b1 : byte, pack_u16 bo n = [b0; b1] /\ unpack_u16 bo b0 b1 = n.
Proof.
  intros Hn.
  assert (Hhi : ((n / 256) mod 256 = n / 256)%N).
  { apply N.mod_small. apply N.Div0.div_lt_upper_bound. lia. }
  pose proof (N.div_mod n 256) as Hdm.
  destruct bo; eexists _, _; (split; [reflexivity|]);
    unfold unpack_u16; rewrite !to_N_byte_of, Hhi; lia.
Qed.

(** A record whose fields fit 16 bits is read back as it was packed. *)
Lemma unpack_pack_winsize (bo : byteorder) (ws : winsize) :
  (ws_row ws < 65536)%N -> (ws_col ws < 65536)%N ->
  (ws_xpixel ws < 65536)%N -> (ws_ypixel ws < 65536)%N ->
  length (pack_winsize bo ws) = 8%nat /\
  unpack_winsize bo (pack_winsize bo ws) = Some ws.
Proof.
  destruct ws as [r c x y]. simpl. intros Hr Hc Hx Hy.
  destruct (unpack_pack_u16 bo r Hr) as (r0 & r1 & Er & Hr').
  destruct (unpack_pack_u16 bo c Hc) as (c0 & c1 & Ec & Hc').
  destruct (unpack_pack_u16 bo x Hx) as (x0 & x1 & Ex & Hx').
  destruct (unpack_pack_u16 bo y Hy) as (y0 & y1 & Ey & Hy').
  unfold pack_winsize. simpl. rewrite Er, Ec, Ex, Ey. simpl.
  split; [done|]. by rewrite Hr', Hc', Hx', Hy'.
Qed.

Lemma window_size_snoc (bo : byteorder) (fd : Z) (t : trace) (ev : event) :
  window_size bo fd (t ++ [ev]) =
    match resize_of bo fd ev with
    | Some ws => Some ws
    | None => window_size bo fd t
    end.
Proof.
  unfold window_size. rewrite omap_app, last_app. simpl.
  by destruct (resize_of bo fd ev).
Qed.

End Record.

(** ** The control channel *)

Section Control.

Context (W : World).

Lemma on_control_eof (fd : Z) (fds : list Z) (t : trace) :
  W _ (length t) (os_read 3 8) = inr [] ->
  on_control W fd fds t = (t ++ [Ev (os_read 3 8) (inr [])], Ret (Next, [fd; 0])).
Proof. intros Hr. run_step. cbn beta. by rewrite Hr. Qed.

Lemma on_control_partial (fd : Z) (fds : list Z) (t : trace) (buf : bytes) :
  W _ (length t) (os_read 3 8) = inr buf ->
  length buf <> 0%nat -> length buf <> 8%nat ->
  on_control W fd fds t = (t ++ [Ev (os_read 3 8) (inr buf)], Ret (Next, fds)).
Proof.
  intros Hr H0 H8. run_step. cbn beta. rewrite Hr. cbn beta iota.
  by rewrite !bool_decide_eq_false_2.
Qed.

Lemma on_control_record (fd : Z) (fds : list Z) (t : trace) (buf v : bytes) :
  W _ (length t) (os_read 3 8) = inr buf ->
  length buf = 8%nat ->
  W _ (S (length t)) (fcntl_ioctl fd TIOCSWINSZ buf) = inr v ->
  on_control W fd fds t =
    (t ++ [Ev (os_read 3 8) (inr buf); Ev (fcntl_ioctl fd TIOCSWINSZ buf) (inr v)],
     Ret (Next, fds)).
Proof.
  intros Hr H8 Hio. run_step. cbn beta. rewrite Hr. cbn beta iota.
  rewrite bool_decide_eq_false_2 by lia.
  rewrite bool_decide_eq_true_2 by done.
  rewrite length_snoc, Hio. cbn beta iota. by rewrite <- app_assoc.
Qed.

(** The request is issued with the bytes that were read, whatever it
    answers. *)
Lemma on_control_request (fd : Z) (fds : list Z) (t : trace) (buf : bytes) :
  W _ (length t) (os_read 3 8) = inr buf ->
  length buf = 8%nat ->
  (on_control W fd fds t).1 =
    t ++ [Ev (os_read 3 8) (inr buf);
          Ev (fcntl_ioctl fd TIOCSWINSZ buf)
             (W _ (S (length t)) (fcntl_ioctl fd TIOCSWINSZ buf))].
Proof.
  intros Hr H8. run_step. cbn beta. rewrite Hr. cbn beta iota.
  rewrite bool_decide_eq_false_2 by lia.
  rewrite bool_decide_eq_true_2 by done.
  rewrite length_snoc.
  destruct (W _ (S (length t)) (fcntl_ioctl fd TIOCSWINSZ buf)) as [x|v];
    cbn beta iota; rewrite <- ?app_assoc; [|done].
  destruct x as [e| | | |]; [|done..].
  by case_bool_decide.
Qed.

Lemma on_master_data (fd : Z) (t : trace) (b : bytes) (n : nat) :
  W _ (length t) (os_read fd 32768) = inr b ->
  length b <> 0%nat ->
  W _ (S (length t)) (stdout_buffer_write b) = inr n ->
  W _ (S (S (length t))) stdout_buffer_flush = inr tt ->
  on_master W fd t =
    (t ++ [Ev (os_read fd 32768) (inr b); Ev (stdout_buffer_write b) (inr n);
           Ev stdout_buffer_flush (inr tt)],
     Ret Next).
Proof.
  intros Hr Hb Hw Hf. run_step. cbn beta. rewrite Hr. cbn beta iota.
  rewrite bool_decide_eq_false_2 by done.
  rewrite length_snoc, Hw. cbn beta iota.
  rewrite !length_snoc, Hf. cbn beta iota. by rewrite <- !app_assoc.
Qed.

Lemma on_stdin_data (fd : Z) (t : trace) (b : bytes) (n : nat) :
  W _ (length t) (os_read 0 32768) = inr b ->
  length b <> 0%nat ->
  W _ (S (length t)) (os_write fd b) = inr n ->
  on_stdin W fd t =
    (t ++ [Ev (os_read 0 32768) (inr b); Ev (os_write fd b) (inr n)], Ret Next).
Proof.
  intros Hr Hb Hw. run_step. cbn beta. rewrite Hr. cbn beta iota.
  rewrite bool_decide_eq_false_2 by done.
  rewrite length_snoc, Hw. cbn beta iota. by rewrite <- !app_assoc.
Qed.

End Control.

Section ControlChannel.

Context (W : World).

(** The turn of the loop in which the control block is reached. *)
Lemma iteration_control (fd : Z) (fds rfds wl xl : list Z) (t t1 t2 : trace) :
  W _ (length t) (select_select fds [] []) = inr (rfds, wl, xl) ->
  master_block W fd rfds (t ++ [Ev (select_select fds [] []) (inr (rfds, wl, xl))])
    = (t1, Ret Next) ->
  stdin_block W fd rfds t1 = (t2, Ret Next) ->
  3 ∈ rfds ->
  iteration W fd fds t = on_control W fd fds t2.
Proof.
  intros Hsel Hm Hs H3. rewrite iteration_run, Hsel.
  erewrite dispatch_control by done.
  unfold control_block. by rewrite bool_decide_eq_true_2.
Qed.

(** C4.  A zero-length read of the control channel does not end the
    session: the program goes to the next turn of the loop, with the
    watch set [[fd; 0]].  With that watch set the relay works as before:
    what a read of the master returns is written to the output stream
    and flushed, what a read of descriptor 0 returns is written to the
    master, and the loop goes on. *)
Theorem control_eof_not_fatal (fuel : nat) (pid fd : Z) (fds rfds wl xl : list Z)
    (t t1 t2 : trace) :
  W _ (length t) (select_select fds [] []) = inr (rfds, wl, xl) ->
  master_block W fd rfds (t ++ [Ev (select_select fds [] []) (inr (rfds, wl, xl))])
    = (t1, Ret Next) ->
  stdin_block W fd rfds t1 = (t2, Ret Next) ->
  3 ∈ rfds ->
  W _ (length t2) (os_read 3 8) = inr [] ->
  session W (S fuel) pid fd fds t =
    session W fuel pid fd [fd; 0] (t2 ++ [Ev (os_read 3 8) (inr [])]) /\
  (forall (k : nat) (s : trace) (ready wl' xl' : list Z) (b : bytes) (n : nat),
     W _ (length s) (select_select [fd; 0] [] []) = inr (ready, wl', xl') ->
     fd ∈ ready -> 0 ∉ ready -> 3 ∉ ready ->
     W _ (S (length s)) (os_read fd 32768) = inr b ->
     length b <> 0%nat ->
     W _ (S (S (length s))) (stdout_buffer_write b) = inr n ->
     W _ (S (S (S (length s)))) stdout_buffer_flush = inr tt ->
     session W (S k) pid fd [fd; 0] s =
       session W k pid fd [fd; 0]
         (s ++ [Ev (select_select [fd; 0] [] []) (inr (ready, wl', xl'));
                Ev (os_read fd 32768) (inr b);
                Ev (stdout_buffer_write b) (inr n);
                Ev stdout_buffer_flush (inr tt)])) /\
  (forall (k : nat) (s : trace) (ready wl' xl' : list Z) (b : bytes) (n : nat),
     W _ (length s) (select_select [fd; 0] [] []) = inr (ready, wl', xl') ->
     fd ∉ ready -> 0 ∈ ready -> 3 ∉ ready ->
     W _ (S (length s)) (os_read 0 32768) = inr b ->
     length b <> 0%nat ->
     W _ (S (S (length s))) (os_write fd b) = inr n ->
     session W (S k) pid fd [fd; 0] s =
       session W k pid fd [fd; 0]
         (s ++ [Ev (select_select [fd; 0] [] []) (inr (ready, wl', xl'));
                Ev (os_read 0 32768) (inr b);
                Ev (os_write fd b) (inr n)])).
Proof.
  intros Hsel Hm Hs H3 Hread. split; [|split].
  - eapply session_next with (f := Next); [|done].
    erewrite iteration_control by done. by apply on_control_eof.
  - intros k s ready wl' xl' b n Hsel' Hfd H0 H3' Hr Hb Hw Hf.
    eapply session_next with (f := Next); [|done].
    rewrite iteration_run, Hsel'.
    unfold dispatch, master_block, stdin_block, control_block.
    rewrite (bool_decide_eq_true_2 (fd ∈ ready)) by done.
    rewrite (bool_decide_eq_false_2 (0 ∈ ready)) by done.
    rewrite (bool_decide_eq_false_2 (3 ∈ ready)) by done.
    unfold mbind at 1, M_bind at 1.
    erewrite on_master_data; [|by rewrite ?length_snoc..].
    rewrite <- app_assoc. done.
  - intros k s ready wl' xl' b n Hsel' Hfd H0 H3' Hr Hb Hw.
    eapply session_next with (f := Next); [|done].
    rewrite iteration_run, Hsel'.
    unfold dispatch, master_block, stdin_block, control_block.
    rewrite (bool_decide_eq_false_2 (fd ∈ ready)) by done.
    rewrite (bool_decide_eq_true_2 (0 ∈ ready)) by done.
    rewrite (bool_decide_eq_false_2 (3 ∈ ready)) by done.
    unfold mbind at 1, M_bind at 1. unfold mret at 1, M_ret at 1.
    unfold mbind at 1, M_bind at 1.
    erewrite on_stdin_data; [|by rewrite ?length_snoc..].
    rewrite <- app_assoc. done.
Qed.

(** C5.  When the read of the control channel returns 8 bytes, the
    [TIOCSWINSZ] request is issued on the master with exactly these
    bytes; when it returns, the window size is the record the bytes
    hold, all four fields as they are, and the loop goes on.  The
    record packed from 24 rows and 80 columns sets 24 by 80 whatever
    the two further fields are.  A read of 1 to 7 bytes issues no
    request, leaves the window size alone and the loop goes on. *)
Theorem resize_record (bo : byteorder) (fuel : nat) (pid fd : Z)
    (fds rfds wl xl : list Z) (t t1 t2 : trace) (buf : bytes) :
  W _ (length t) (select_select fds [] []) = inr (rfds, wl, xl) ->
  master_block W fd rfds (t ++ [Ev (select_select fds [] []) (inr (rfds, wl, xl))])
    = (t1, Ret Next) ->
  stdin_block W fd rfds t1 = (t2, Ret Next) ->
  3 ∈ rfds ->
  W _ (length t2) (os_read 3 8) = inr buf ->
  let rd := Ev (os_read 3 8) (inr buf) in
  let io := W _ (S (length t2)) (fcntl_ioctl fd TIOCSWINSZ buf) in
  (length buf = 8%nat ->
     (iteration W fd fds t).1 = t2 ++ [rd; Ev (fcntl_ioctl fd TIOCSWINSZ buf) io] /\
     (forall v : bytes, io = inr v ->
        let t' := t2 ++ [rd; Ev (fcntl_ioctl fd TIOCSWINSZ buf) (inr v)] in
        session W (S fuel) pid fd fds t = session W fuel pid fd fds t' /\
        window_size bo fd t' = unpack_winsize bo buf /\
        is_Some (unpack_winsize bo buf) /\
        (forall ws : winsize,
           (ws_row ws < 65536)%N -> (ws_col ws < 65536)%N ->
           (ws_xpixel ws < 65536)%N -> (ws_ypixel ws < 65536)%N ->
           buf = pack_winsize bo ws -> window_size bo fd t' = Some ws) /\
        (forall x y : N,
           (x < 65536)%N -> (y < 65536)%N ->
           buf = pack_winsize bo (Winsize 24 80 x y) ->
           ws_row <$> window_size bo fd t' = Some 24%N /\
           ws_col <$> window_size bo fd t' = Some 80%N))) /\
  ((1 <= length buf <= 7)%nat ->
     session W (S fuel) pid fd fds t = session W fuel pid fd fds (t2 ++ [rd]) /\
     window_size bo fd (t2 ++ [rd]) = window_size bo fd t2).
Proof.
  intros Hsel Hm Hs H3 Hread rd io.
  pose proof (iteration_control fd fds rfds wl xl t t1 t2 Hsel Hm Hs H3) as Hit.
  split.
  - intros H8. split.
    { rewrite Hit. by apply on_control_request. }
    intros v Hio t'.
    assert (Hws : window_size bo fd t' = unpack_winsize bo buf).
    { subst t'. replace (t2 ++ [rd; Ev (fcntl_ioctl fd TIOCSWINSZ buf) (inr v)])
        with ((t2 ++ [rd]) ++ [Ev (fcntl_ioctl fd TIOCSWINSZ buf) (inr v)])
        by by rewrite <- app_assoc.
      rewrite window_size_snoc. simpl. rewrite bool_decide_eq_true_2 by done.
      destruct buf as [|? [|? [|? [|? [|? [|? [|? [|? [|]]]]]]]]];
        simplify_eq/=; done. }
    split; [|split; [done|split; [|split]]].
    + eapply session_next with (f := Next); [|done].
      rewrite Hit. by apply on_control_record.
    + destruct buf as [|? [|? [|? [|? [|? [|? [|? [|? [|]]]]]]]]];
        simplify_eq/=; done.
    + intros ws Hr Hc Hx Hy ->. rewrite Hws.
      by apply unpack_pack_winsize.
    + intros x y Hx Hy ->. rewrite Hws.
      destruct (unpack_pack_winsize bo (Winsize 24 80 x y)) as [_ ->]; done.
  - intros Hlen. split.
    + eapply session_next with (f := Next); [|done].
      rewrite Hit. apply on_control_partial; [done|lia..].
    + rewrite window_size_snoc. done.
Qed.

End ControlChannel.

(** ** Whole runs of the loop *)

Ltac tests :=
  repeat match goal with
    | H : bool_decide _ = true |- _ => apply bool_decide_eq_true_1 in H
    | H : bool_decide _ = false |- _ => apply bool_decide_eq_false_1 in H
    | H : length ?v = 0%nat |- _ => apply nil_length_inv in H; subst v
    end.

Section Invariants.

Context (W : World).

(** What every turn of the loop adds to the trace: one [select], on the
    watch set the turn began with, and neither a kill nor a close.  The
    turn ends by an exception or with a watch set for the next turn,
    which is the one it began with unless the last call of the turn was
    a zero-length read of the control channel, and then it is
    [[fd; 0]]. *)
Lemma iteration_shape (fd : Z) (fds : list Z) (t : trace) :
  exists ext : trace,
    (iteration W fd fds t).1 = t ++ ext /\
    watch_sets ext = [fds] /\
    count is_kill ext = 0%nat /\
    count is_close ext = 0%nat /\
    match (iteration W fd fds t).2 with
    | Ret (f, fds') =>
        fds' = fds \/
        (f = Next /\ fds' = [fd; 0] /\ last ext = Some (Ev (os_read 3 8) (inr [])))
    | Raise _ => True
    | _ => False
    end.
Proof.
  paths.
  all: tests; simpl in *; simplify_eq; rewrite <- ?app_assoc; simpl;
    (eexists; split; [reflexivity|]); split_and!; [reflexivity..|auto 10].
Qed.

Lemma loop_S (fuel : nat) (fd : Z) (fds : list Z) (t : trace) :
  loop W (S fuel) fd fds t =
    match iteration W fd fds t with
    | (t', Ret (Break, _)) => (t', Ret tt)
    | (t', Ret (_, fds')) => loop W fuel fd fds' t'
    | (t', Raise e) => (t', Raise e)
    | (t', Replaced) => (t', Replaced)
    | (t', Running) => (t', Running)
    end.
Proof.
  simpl. unfold mbind, M_bind.
  by destruct (iteration W fd fds t) as [t' [[[] fds']| | |]].
Qed.

Lemma watch_sets_app (t1 t2 : trace) :
  watch_sets (t1 ++ t2) = watch_sets t1 ++ watch_sets t2.
Proof. apply omap_app. Qed.

(** What the loop adds to the trace, in two stretches: turns on the
    watch set the loop was entered with and then turns on [[fd; 0]],
    the second stretch beginning right after a zero-length read of the
    control channel.  The loop issues neither a kill nor a close. *)
Lemma loop_shape (fuel : nat) (fd : Z) (fds : list Z) (t : trace) :
  exists ext1 ext2 : trace,
    (loop W fuel fd fds t).1 = t ++ ext1 ++ ext2 /\
    Forall (fun ws => ws = fds) (watch_sets ext1) /\
    Forall (fun ws => ws = [fd; 0]) (watch_sets ext2) /\
    (ext2 <> [] -> last ext1 = Some (Ev (os_read 3 8) (inr []))) /\
    count is_kill (ext1 ++ ext2) = 0%nat /\
    count is_close (ext1 ++ ext2) = 0%nat /\
    (loop W fuel fd fds t).2 <> Replaced.
Proof.
  revert fds t. induction fuel as [|fuel IH]; intros fds t.
  { exists [], []. simpl. rewrite app_nil_r. by repeat split. }
  rewrite loop_S.
  destruct (iteration_shape fd fds t) as (ext & Ht & Hws & Hk & Hc & Ho).
  destruct (iteration W fd fds t) as [t' o]. simpl in Ht, Ho. subst t'.
  assert (Hstop : exists ext1 ext2 : trace,
            t ++ ext = t ++ ext1 ++ ext2 /\
            Forall (fun ws => ws = fds) (watch_sets ext1) /\
            Forall (fun ws => ws = [fd; 0]) (watch_sets ext2) /\
            (ext2 <> [] -> last ext1 = Some (Ev (os_read 3 8) (inr []))) /\
            count is_kill (ext1 ++ ext2) = 0%nat /\
            count is_close (ext1 ++ ext2) = 0%nat).
  { exists ext, []. rewrite !app_nil_r, Hws. repeat split; try done.
    by repeat constructor. }
  destruct o as [[f fds']|e| |]; [|by destruct Hstop as (e1 & e2 & ? & ? & ? & ? & ? & ?);
                                    exists e1, e2|done..].
  assert (Hgo : exists ext1 ext2 : trace,
            (loop W fuel fd fds' (t ++ ext)).1 = t ++ ext1 ++ ext2 /\
            Forall (fun ws => ws = fds) (watch_sets ext1) /\
            Forall (fun ws => ws = [fd; 0]) (watch_sets ext2) /\
            (ext2 <> [] -> last ext1 = Some (Ev (os_read 3 8) (inr []))) /\
            count is_kill (ext1 ++ ext2) = 0%nat /\
            count is_close (ext1 ++ ext2) = 0%nat /\
            (loop W fuel fd fds' (t ++ ext)).2 <> Replaced).
  { destruct (IH fds' (t ++ ext)) as (e1 & e2 & Ht' & H1 & H2 & Hl & Hk' & Hc' & Ho').
    rewrite count_app in Hk', Hc'.
    destruct Ho as [->|(_ & -> & Hlast)].
    - exists (ext ++ e1), e2. rewrite Ht', <- !app_assoc.
      split; [done|]. rewrite watch_sets_app, Hws.
      split; [by constructor|]. split; [done|]. split.
      { intros Hne. rewrite last_app, (Hl Hne). done. }
      rewrite !count_app. split_and!; [lia..|done].
    - exists ext, (e1 ++ e2). rewrite Ht', <- !app_assoc.
      split; [done|]. rewrite watch_sets_app, Hws.
      split; [by repeat constructor|]. split; [by apply Forall_app|].
      split; [done|].
      rewrite !count_app. split_and!; [lia..|done]. }
  destruct f; [done|done|].
  destruct Hstop as (e1 & e2 & ? & ? & ? & ? & ? & ?). by exists e1, e2.
Qed.

End Invariants.

Section WholeRuns.

Context (W : World).

(** C9.  The loop entered with [[fd; 0; 3]] calls [select] on
    [[fd; 0; 3]] for a number of turns and from then on on [[fd; 0]],
    and the turns on [[fd; 0]] begin right after a zero-length read of
    the control channel.  Turn by turn: from either of the two watch
    sets a turn leads to one of the two; from [[fd; 0]] it leads to
    [[fd; 0]]; and a turn that changes the watch set changes it to
    [[fd; 0]] and ended in a zero-length read of the control channel. *)
Theorem watch_set_invariant (fuel : nat) (fd : Z) (t : trace) :
  (exists ext1 ext2 : trace,
     (loop W fuel fd [fd; 0; 3] t).1 = t ++ ext1 ++ ext2 /\
     Forall (fun ws => ws = [fd; 0; 3]) (watch_sets ext1) /\
     Forall (fun ws => ws = [fd; 0]) (watch_sets ext2) /\
     (ext2 <> [] -> last ext1 = Some (Ev (os_read 3 8) (inr [])))) /\
  (forall (fds : list Z) (s : trace),
     fds = [fd; 0; 3] \/ fds = [fd; 0] ->
     watch_sets (drop (length s) (iteration W fd fds s).1) = [fds] /\
     match (iteration W fd fds s).2 with
     | Ret (f, fds') =>
         (fds' = [fd; 0; 3] \/ fds' = [fd; 0]) /\
         (fds = [fd; 0] -> fds' = [fd; 0]) /\
         (fds' <> fds ->
            fds' = [fd; 0] /\
            last (iteration W fd fds s).1 = Some (Ev (os_read 3 8) (inr [])))
     | _ => True
     end).
Proof.
  split.
  - destruct (loop_shape W fuel fd [fd; 0; 3] t)
      as (e1 & e2 & Ht & H1 & H2 & Hl & _).
    by exists e1, e2.
  - intros fds s Hfds.
    destruct (iteration_shape W fd fds s) as (ext & Ht & Hws & _ & _ & Ho).
    rewrite Ht, drop_app_length. split; [done|].
    destruct (iteration W fd fds s) as [s' [[f fds']|e| |]]; try done.
    simpl in Ht, Ho. subst s'.
    destruct Ho as [->|(_ & -> & Hlast)].
    + split; [done|]. split; [done|]. by intros [].
    + split; [by right|]. split; [done|]. intros _. split; [done|].
      by rewrite last_app, Hlast.
Qed.

(** The [try] statement, by the way its loop ends. *)
Lemma session_run (fuel : nat) (pid fd : Z) (fds : list Z) (t : trace) :
  session W fuel pid fd fds t =
    match loop W fuel fd fds t with
    | (t1, Ret _) => cleanup W pid fd t1
    | (t1, Raise e) =>
        if is_KeyboardInterrupt e then cleanup W pid fd t1
        else (cleanup W pid fd ;; @raise unit e) t1
    | other => other
    end.
Proof.
  unfold session, try_finally, try_except.
  destruct (loop W fuel fd fds t) as [t1 [[]|e| |]]; try done.
  - apply then_unit.
  - destruct (is_KeyboardInterrupt e); [apply then_unit|done].
Qed.

Lemma then_raise (m : M unit) (e : exn) (t : trace) :
  (m ;; @raise unit e) t =
    ((m t).1, match (m t).2 with Ret _ => Raise e | o => o end).
Proof.
  unfold mbind, M_bind, raise. by destruct (m t) as [t' [[]| | |]].
Qed.

(** C2.  However the loop ends (by [break], by [KeyboardInterrupt] or by
    another exception), the [finally] block runs once, right after the
    last call of the loop: the whole run holds exactly one kill more
    than the trace it started from, and the loop itself none.  When
    [os.kill] returns or raises [ProcessLookupError], the close of the
    master follows, once; and when the close returns or raises
    [OSError], the [finally] block returns, so that the run ends as the
    loop did: normally after a [break] or a [KeyboardInterrupt], and
    with the pending exception otherwise. *)
Theorem cleanup_exactly_once (fuel : nat) (pid fd : Z) (fds : list Z) (t : trace) :
  let body := loop W fuel fd fds t in
  let run := session W fuel pid fd fds t in
  let k := W unit (length body.1) (os_kill pid 9) in
  let c := W unit (S (length body.1)) (os_close fd) in
  body.2 <> Running ->
  count is_kill body.1 = count is_kill t /\
  count is_close body.1 = count is_close t /\
  (exists rest : trace, run.1 = body.1 ++ Ev (os_kill pid 9) k :: rest) /\
  count is_kill run.1 = S (count is_kill t) /\
  (k = inr tt \/ k = inl ProcessLookupError ->
     run.1 = body.1 ++ [Ev (os_kill pid 9) k; Ev (os_close fd) c] /\
     count is_close run.1 = S (count is_close t) /\
     (c = inr tt \/ (exists e : errno, c = inl (OSError e)) ->
        cleanup W pid fd body.1 = (run.1, Ret tt) /\
        run.2 = match body.2 with
                | Raise e => if is_KeyboardInterrupt e then Ret tt else Raise e
                | o => o
                end)).
Proof.
  intros body run k c Hend. subst body run k c.
  destruct (loop_shape W fuel fd fds t)
    as (e1 & e2 & Ht & _ & _ & _ & Hk & Hc & Hrep).
  rewrite session_run.
  destruct (loop W fuel fd fds t) as [t1 o]. simpl in *. subst t1.
  assert (Hk1 : count is_kill (t ++ e1 ++ e2) = count is_kill t).
  { rewrite count_app. lia. }
  assert (Hc1 : count is_close (t ++ e1 ++ e2) = count is_close t).
  { rewrite count_app. lia. }
  set (t1 := t ++ e1 ++ e2) in *.
  pose proof (cleanup_run W pid fd t1) as Hcl. simpl in Hcl.
  assert (Hsame : forall e : exn,
            ((cleanup W pid fd ;; @raise unit e) t1).1 = (cleanup W pid fd t1).1).
  { intros e. by rewrite then_raise. }
  assert (Hrun : (match o with
                  | Ret _ => cleanup W pid fd t1
                  | Raise e =>
                      if is_KeyboardInterrupt e then cleanup W pid fd t1
                      else (cleanup W pid fd ;; @raise unit e) t1
                  | Replaced => (t1, Replaced)
                  | Running => (t1, Running)
                  end).1 = (cleanup W pid fd t1).1).
  { destruct o as [[]|e| |]; try done. by destruct (is_KeyboardInterrupt e). }
  rewrite Hrun.
  split; [done|]. split; [done|].
  destruct (W unit (length t1) (os_kill pid 9)) as [ek|[]] eqn:Ek.
  - destruct (is_ProcessLookupError ek) eqn:Hple.
    + rewrite Hcl. simpl. split; [by eexists|].
      split; [rewrite count_app, Hk1; unfold count; simpl; lia|].
      intros _. split; [done|].
      split; [rewrite count_app, Hc1; unfold count; simpl; lia|].
      intros Hclose.
      assert (Hret : match W unit (S (length t1)) (os_close fd) with
                     | inl e => if is_OSError e then Ret tt else Raise e
                     | inr _ => Ret tt
                     end = Ret tt).
      { destruct Hclose as [->|[e ->]]; done. }
      rewrite Hret. split; [done|].
      destruct o as [[]|e| |]; try done.
      destruct (is_KeyboardInterrupt e); [done|].
      rewrite then_raise, Hcl, ?Ek. cbn beta iota. rewrite ?Hple. simpl.
      by rewrite Hret.
    + rewrite Hcl. simpl. split; [by eexists|].
      split; [rewrite count_snoc, Hk1; simpl; lia|].
      intros [?|[= ->]]; done.
  - rewrite Hcl. simpl. split; [by eexists|].
    split; [rewrite count_app, Hk1; unfold count; simpl; lia|].
    intros _. split; [done|].
    split; [rewrite count_app, Hc1; unfold count; simpl; lia|].
    intros Hclose.
    assert (Hret : match W unit (S (length t1)) (os_close fd) with
                   | inl e => if is_OSError e then Ret tt else Raise e
                   | inr _ => Ret tt
                   end = Ret tt).
    { destruct Hclose as [->|[e ->]]; done. }
    rewrite Hret. split; [done|].
    destruct o as [[]|e| |]; try done.
    destruct (is_KeyboardInterrupt e); [done|].
    rewrite then_raise, Hcl, ?Ek. cbn beta iota. simpl.
    by rewrite Hret.
Qed.

End WholeRuns.

(** ** Forwarding of input *)

Section Forwarding.

Context (W : World).

Lemma forwarded_app (fd : Z) (t1 t2 : trace) :
  forwarded fd (t1 ++ t2) = forwarded fd t1 ++ forwarded fd t2.
Proof. unfold forwarded. apply bind_app. Qed.

Lemma delivered_app (t1 t2 : trace) :
  delivered (t1 ++ t2) = delivered t1 ++ delivered t2.
Proof. unfold delivered. apply bind_app. Qed.

(** In one turn of the loop, when every write to the master takes its
    whole buffer, the master takes what was read from descriptor 0. *)
Lemma iteration_forwards (fd : Z) (fds : list Z) (t : trace) :
  fd <> 0 ->
  exists ext : trace,
    (iteration W fd fds t).1 = t ++ ext /\
    (Forall (fun ev => whole_write ev = true) ext ->
     forwarded fd ext = delivered ext).
Proof.
  intros Hfd. paths.
  all: tests; simpl in *; simplify_eq; rewrite <- ?app_assoc; simpl;
    (eexists; split; [reflexivity|]); intros Hall;
    repeat match goal with
      | H : Forall _ (_ :: _) |- _ => apply Forall_cons_1 in H; destruct H as [? H]
      | H : whole_write _ = true |- _ => simpl in H
      end.
  all: unfold forwarded, delivered; simpl;
    rewrite ?bool_decide_eq_true_2 by done;
    repeat case_match; simplify_eq/=; rewrite ?app_nil_r; try done.
  all: tests; by rewrite take_ge.
Qed.

(** Over the whole loop: as long as every write to the master takes its
    whole buffer, the master takes exactly what was read from
    descriptor 0, in order. *)
Lemma loop_forwards (fuel : nat) (fd : Z) (fds : list Z) (t : trace) :
  fd <> 0 ->
  exists ext : trace,
    (loop W fuel fd fds t).1 = t ++ ext /\
    (Forall (fun ev => whole_write ev = true) ext ->
     forwarded fd ext = delivered ext).
Proof.
  intros Hfd. revert fds t. induction fuel as [|fuel IH]; intros fds t.
  { exists []. by rewrite app_nil_r. }
  rewrite loop_S.
  destruct (iteration_forwards fd fds t Hfd) as (ext & Ht & Hext).
  destruct (iteration W fd fds t) as [t' o]. simpl in Ht. subst t'.
  destruct o as [[f fds']|e| |]; [|by exists ext..].
  destruct (IH fds' (t ++ ext)) as (ext' & Ht' & Hext').
  assert (Hgo : exists ext0 : trace,
            (loop W fuel fd fds' (t ++ ext)).1 = t ++ ext0 /\
            (Forall (fun ev => whole_write ev = true) ext0 ->
             forwarded fd ext0 = delivered ext0)).
  { exists (ext ++ ext'). rewrite Ht', <- app_assoc. split; [done|].
    intros [H1 H2]%Forall_app.
    by rewrite forwarded_app, delivered_app, Hext, Hext'. }
  destruct f; [done|done|by exists ext].
Qed.

End Forwarding.

(** C1.  A run in which the master takes only part of a buffer: the read
    of descriptor 0 hands over two bytes, [os.write] answers 1, and the
    next read is the end of input.  The program writes once, does not
    look at the answer, and the second byte never reaches the master. *)
Theorem short_write_loses_input :
  let run := main (scripted short_write) ["pty-helper.py"; "/bin/sh"] ∅ 2 [] in
  run.2 = Ret tt /\
  delivered run.1 = ["a"; "b"]%byte /\
  forwarded 5 run.1 = ["a"]%byte /\
  filter (fun ev => whole_write ev = false) run.1 =
    [Ev (os_write 5 ["a"; "b"]%byte) (inr 1%nat)].
Proof. vm_compute. done. Qed.

(** ** Concrete runs *)

Lemma usage_failure_witness :
  (length ["pty-helper.py"%string] < 2)%nat /\
  (main (scripted []) ["pty-helper.py"] ∅ 3 []).2 = Raise (SystemExit 1).
Proof.
  assert (H : (length ["pty-helper.py"%string] < 2)%nat) by (simpl; lia).
  split; [exact H|].
  destruct (usage_failure (scripted []) ["pty-helper.py"] ∅ 3 H) as (_ & _ & Hexit).
  apply Hexit. reflexivity.
Defined.

Lemma child_launch_witness :
  exists (env : gmap string string) (r : result unit),
    (main (scripted [Forked 0 5]) ["pty-helper.py"; "/bin/sh"; "-c"]
       (<["TERM" := "dumb"]> ∅) 3 []).1 =
      [Ev pty_fork (inr (0, 5)); Ev (os_execve "/bin/sh" ["/bin/sh"; "-c"] env) r] /\
    env !! "TERM" = Some "xterm-256color" /\
    env !! "FORCE_COLOR" = Some "1".
Proof.
  destruct (child_launch (scripted [Forked 0 5]) ["pty-helper.py"; "/bin/sh"; "-c"]
              (<["TERM" := "dumb"]> ∅) 3 "/bin/sh" 5 eq_refl eq_refl)
    as (cmd_argv & env & r & Ht & Hargv & _ & Hterm & Hcolor & _).
  exists env, r. rewrite Ht, Hargv. done.
Defined.

Lemma close_needs_tolerated_kill_witness :
  cleanup (scripted kill_refused) 7 5 [] =
    ([Ev (os_kill 7 9) (inl (OSError EPERM))], Raise (OSError EPERM)) /\
  count is_close (cleanup (scripted kill_refused) 7 5 []).1 = 0%nat.
Proof.
  destruct (close_needs_tolerated_kill (scripted kill_refused) 7 5 []) as [_ H].
  apply (H (OSError EPERM)); [reflexivity|discriminate].
Defined.

Lemma master_read_failure_witness :
  session (scripted master_interrupted) 2 7 5 [5; 0; 3] started =
    session (scripted master_interrupted) 1 7 5 [5; 0; 3]
      (started ++ [Ev (select_select [5; 0; 3] [] []) (inr ([5], [], []));
                   Ev (os_read 5 32768) (inl (OSError EINTR))]).
Proof.
  assert (Hin : 5 ∈ [5]) by compute_done.
  destruct (master_read_failure (scripted master_interrupted) 1 7 5 [5; 0; 3]
              [5] [] [] started EINTR eq_refl Hin eq_refl) as (H & _ & _).
  apply H. left. reflexivity.
Defined.

Lemma zero_length_read_ends_loop_witness :
  loop (scripted master_eof) 2 5 [5; 0; 3] started =
    (started ++ [Ev (select_select [5; 0; 3] [] []) (inr ([5], [], []));
                 Ev (os_read 5 32768) (inr [])], Ret tt) /\
  loop (scripted stdin_eof) 2 5 [5; 0; 3] started =
    (started ++ [Ev (select_select [5; 0; 3] [] []) (inr ([0], [], []));
                 Ev (os_read 0 32768) (inr [])], Ret tt).
Proof.
  assert (H5 : 5 ∈ [5]) by compute_done.
  assert (H0 : 0 ∈ [0]) by compute_done.
  split.
  - destruct (zero_length_read_ends_loop (scripted master_eof) 1 7 5 [5; 0; 3]
                [5] [] [] started eq_refl) as [H _].
    destruct (H H5 eq_refl) as [Hloop _]. exact Hloop.
  - destruct (zero_length_read_ends_loop (scripted stdin_eof) 1 7 5 [5; 0; 3]
                [0] [] [] started eq_refl) as [_ H].
    destruct (H _ eq_refl H0 eq_refl) as [Hloop _]. exact Hloop.
Defined.

Lemma control_eof_not_fatal_witness :
  session (scripted control_closed) 3 7 5 [5; 0; 3] started =
    session (scripted control_closed) 0 7 5 [5; 0]
      (started ++
       [Ev (select_select [5; 0; 3] [] []) (inr ([3], [], []));
        Ev (os_read 3 8) (inr []);
        Ev (select_select [5; 0] [] []) (inr ([5], [], []));
        Ev (os_read 5 32768) (inr ["h"; "i"]%byte);
        Ev (stdout_buffer_write ["h"; "i"]%byte) (inr 2%nat);
        Ev stdout_buffer_flush (inr tt);
        Ev (select_select [5; 0] [] []) (inr ([0], [], []));
        Ev (os_read 0 32768) (inr ["l"; "s"]%byte);
        Ev (os_write 5 ["l"; "s"]%byte) (inr 2%nat)]).
Proof.
  assert (H3 : 3 ∈ [3]) by compute_done.
  destruct (control_eof_not_fatal (scripted control_closed) 2 7 5 [5; 0; 3]
              [3] [] [] started _ _ eq_refl eq_refl eq_refl H3 eq_refl)
    as (Hstep & Hout & Hin).
  rewrite Hstep.
  set (s1 := (started ++ [Ev (select_select [5; 0; 3] [] []) (inr ([3], [], []))])
             ++ [Ev (os_read 3 8) (inr [])]).
  rewrite (Hout 1%nat s1 [5] [] [] ["h"; "i"]%byte 2%nat eq_refl);
    [|compute_done|compute_done|compute_done|reflexivity|discriminate
     |reflexivity|reflexivity].
  set (s2 := s1 ++ [Ev (select_select [5; 0] [] []) (inr ([5], [], []));
                    Ev (os_read 5 32768) (inr ["h"; "i"]%byte);
                    Ev (stdout_buffer_write ["h"; "i"]%byte) (inr 2%nat);
                    Ev stdout_buffer_flush (inr tt)]).
  rewrite (Hin 0%nat s2 [0] [] [] ["l"; "s"]%byte 2%nat eq_refl);
    [|compute_done|compute_done|compute_done|reflexivity|discriminate|reflexivity].
  reflexivity.
Defined.

Lemma resize_record_witness :
  let t' := started ++
    [Ev (select_select [5; 0; 3] [] []) (inr ([3], [], []));
     Ev (os_read 3 8) (inr (pack_winsize LittleEndian (Winsize 24 80 640 480)));
     Ev (fcntl_ioctl 5 TIOCSWINSZ (pack_winsize LittleEndian (Winsize 24 80 640 480)))
        (inr (pack_winsize LittleEndian (Winsize 24 80 640 480)))] in
  let t'' := started ++
    [Ev (select_select [5; 0; 3] [] []) (inr ([3], [], []));
     Ev (os_read 3 8) (inr ["024"; "000"; "P"]%byte)] in
  (session (scripted resized) 2 7 5 [5; 0; 3] started =
     session (scripted resized) 1 7 5 [5; 0; 3] t' /\
   window_size LittleEndian 5 t' = Some (Winsize 24 80 640 480)) /\
  (session (scripted partial_record) 2 7 5 [5; 0; 3] started =
     session (scripted partial_record) 1 7 5 [5; 0; 3] t'' /\
   window_size LittleEndian 5 t'' = None).
Proof.
  assert (H3 : 3 ∈ [3]) by compute_done.
  split.
  - destruct (resize_record (scripted resized) LittleEndian 1 7 5 [5; 0; 3]
                [3] [] [] started _ _ _ eq_refl eq_refl eq_refl H3 eq_refl)
      as [Hrec _].
    destruct (Hrec eq_refl) as [_ Hset].
    destruct (Hset _ eq_refl) as (Hstep & _ & _ & Hws & _).
    split; [exact Hstep|].
    apply Hws; [reflexivity..].
  - destruct (resize_record (scripted partial_record) LittleEndian 1 7 5 [5; 0; 3]
                [3] [] [] started _ _ _ eq_refl eq_refl eq_refl H3 eq_refl)
      as [_ Hpart].
    destruct Hpart as [Hstep Hws]; [simpl; lia|].
    split; [exact Hstep|]. rewrite <- app_assoc in Hws. exact Hws.
Defined.

Lemma cleanup_exactly_once_witness :
  (loop (scripted stdin_eof) 3 5 [5; 0; 3] started).2 <> Running /\
  (session (scripted stdin_eof) 3 7 5 [5; 0; 3] started).1 =
    started ++ [Ev (select_select [5; 0; 3] [] []) (inr ([0], [], []));
                Ev (os_read 0 32768) (inr []);
                Ev (os_kill 7 9) (inl ProcessLookupError);
                Ev (os_close 5) (inl (OSError EBADF))] /\
  (session (scripted stdin_eof) 3 7 5 [5; 0; 3] started).2 = Ret tt /\
  count is_kill (session (scripted stdin_eof) 3 7 5 [5; 0; 3] started).1 = 1%nat /\
  count is_close (session (scripted stdin_eof) 3 7 5 [5; 0; 3] started).1 = 1%nat.
Proof.
  assert (Hend : (loop (scripted stdin_eof) 3 5 [5; 0; 3] started).2 <> Running)
    by (vm_compute; discriminate).
  split; [exact Hend|].
  destruct (cleanup_exactly_once (scripted stdin_eof) 3 7 5 [5; 0; 3] started Hend)
    as (_ & _ & _ & Hkill & Htol).
  destruct Htol as (Ht & Hclose & Hret); [right; reflexivity|].
  destruct Hret as [_ Hout]; [right; exists EBADF; reflexivity|].
  split; [exact Ht|]. split; [exact Hout|]. split; [exact Hkill|exact Hclose].
Defined.

Lemma watch_set_invariant_witness :
  watch_sets (drop (length started)
                (iteration (scripted control_closed) 5 [5; 0; 3] started).1) =
    [[5; 0; 3]] /\
  match (iteration (scripted control_closed) 5 [5; 0; 3] started).2 with
  | Ret (f, fds') =>
      (fds' = [5; 0; 3] \/ fds' = [5; 0]) /\
      ([5; 0; 3] = [5; 0] -> fds' = [5; 0]) /\
      (fds' <> [5; 0; 3] ->
         fds' = [5; 0] /\
         last (iteration (scripted control_closed) 5 [5; 0; 3] started).1 =
           Some (Ev (os_read 3 8) (inr [])))
  | _ => True
  end.
Proof.
  destruct (watch_set_invariant (scripted control_closed) 3 5 started) as [_ H].
  apply (H [5; 0; 3] started). left. reflexivity.
Defined.

(** ** The relay towards the output stream, and what the loop calls *)

Section Relay.

Context (W : World).



Lemma flushed_app (t1 t2 : trace) :
  flushed t1 = true -> flushed t2 = true -> flushed (t1 ++ t2) = true.
Proof.
  induction t1 as [|ev [|next rest] IH]; intros H1 H2; [done| |].
  - simpl in *. destruct (is_returned_show ev); [done|]. by rewrite H2.
  - change ((ev :: next :: rest) ++ t2) with (ev :: (next :: rest) ++ t2).
    change (flushed (ev :: next :: rest)) with
      ((if is_returned_show ev then is_flush next else true)
       && flushed (next :: rest)) in H1.
    apply andb_prop in H1 as [Ha Hb].
    change (flushed (ev :: (next :: rest) ++ t2)) with
      ((if is_returned_show ev then is_flush next else true)
       && flushed ((next :: rest) ++ t2)).
    rewrite Ha. simpl andb. by apply IH.
Qed.

(** What [flushed] says, event by event. *)
Lemma flushed_next (pre post : trace) (b : bytes) (n : nat) :
  flushed (pre ++ Ev (stdout_buffer_write b) (inr n) :: post) = true ->
  exists (r : result unit) (post' : trace),
    post = Ev stdout_buffer_flush r :: post'.
Proof.
  induction pre as [|ev pre IH]; intros H.
  - simpl in H. destruct post as [|next post']; [done|].
    apply andb_prop in H as [Hf _].
    destruct next as [T c r]. destruct c; try done. by exists r, post'.
  - apply IH. change ((ev :: pre) ++ Ev (stdout_buffer_write b) (inr n) :: post)
      with (ev :: (pre ++ Ev (stdout_buffer_write b) (inr n) :: post)) in H.
    simpl in H. by apply andb_prop in H as [_ H].
Qed.

(** A property of what is added to the trace that holds of every turn and
    of the concatenation of two stretches holds of the whole loop. *)
Lemma loop_extends (P : trace -> Prop) (fd : Z) :
  P [] ->
  (forall a b : trace, P a -> P b -> P (a ++ b)) ->
  (forall (fds : list Z) (t : trace),
     exists ext : trace, (iteration W fd fds t).1 = t ++ ext /\ P ext) ->
  forall (fuel : nat) (fds : list Z) (t : trace),
    exists ext : trace, (loop W fuel fd fds t).1 = t ++ ext /\ P ext.
Proof.
  intros Hnil Happ Hturn fuel.
  induction fuel as [|fuel IH]; intros fds t.
  { exists []. by rewrite app_nil_r. }
  rewrite loop_S.
  destruct (Hturn fds t) as (ext & Ht & Hext).
  destruct (iteration W fd fds t) as [t' o]. simpl in Ht. subst t'.
  destruct o as [[f fds']|e| |]; [|by exists ext..].
  assert (Hgo : exists ext0 : trace,
            (loop W fuel fd fds' (t ++ ext)).1 = t ++ ext0 /\ P ext0).
  { destruct (IH fds' (t ++ ext)) as (ext' & Ht' & Hext').
    exists (ext ++ ext'). rewrite Ht', <- app_assoc. split; [done|].
    by apply Happ. }
  destruct f; [done|done|by exists ext].
Qed.

(** The loop raises only when a turn does. *)
Lemma loop_raise_turn (fuel : nat) (fd : Z) (fds : list Z) (t : trace) (e : exn) :
  (loop W fuel fd fds t).2 = Raise e ->
  exists (fds' : list Z) (t' : trace),
    iteration W fd fds' t' = ((loop W fuel fd fds t).1, Raise e).
Proof.
  revert fds t. induction fuel as [|fuel IH]; intros fds t; [done|].
  rewrite loop_S.
  destruct (iteration W fd fds t) as [t' o] eqn:Hit.
  destruct o as [[f fds']|e'| |]; try done.
  - destruct f; try done; apply IH.
  - simpl. intros [= ->]. by exists fds, t.
Qed.

End Relay.

Section Turns.

Context (W : World).


(** The calls of one turn, and where an exception that leaves the turn
    comes from. *)
Lemma iteration_calls (fd : Z) (fds : list Z) (t : trace) :
  exists ext : trace,
    (iteration W fd fds t).1 = t ++ ext /\
    flushed ext = true /\
    Forall (fun ev => loop_call fd ev = true) ext /\
    match (iteration W fd fds t).2 with
    | Raise e =>
        exists ev : event,
          last ext = Some ev /\ raised_by ev = Some e /\
          (is_OSError e = true -> is_select ev = true)
    | _ => True
    end.
Proof.
  paths.
  all: tests; simpl in *; simplify_eq; rewrite <- ?app_assoc; simpl;
    (eexists; split; [reflexivity|]).
  all: split_and!;
    try match goal with
      | |- Forall _ _ =>
          repeat (apply Forall_cons; split; [|]); try apply Forall_nil; simpl;
          try reflexivity; apply bool_decide_eq_true_2; naive_solver
      | |- exists _, _ =>
          eexists; split; [reflexivity|]; split; [reflexivity|]; done
      | |- _ => done
      end.
Qed.

End Turns.

(** ** Whole sessions *)

Section Sessions.

Context (W : World).

(** What the [try] statement adds to the trace: the calls of the loop and
    then, unless the loop is still running, the kill and, when the block
    goes that far, the close. *)
Lemma session_trace (fuel : nat) (pid fd : Z) (fds : list Z) (t : trace) :
  exists ext cl : trace,
    (loop W fuel fd fds t).1 = t ++ ext /\
    (session W fuel pid fd fds t).1 = t ++ ext ++ cl /\
    (cl = [] \/
     (exists k, cl = [Ev (os_kill pid 9) k]) \/
     (exists k c, cl = [Ev (os_kill pid 9) k; Ev (os_close fd) c])).
Proof.
  destruct (loop_shape W fuel fd fds t) as (e1 & e2 & Ht & _).
  rewrite session_run.
  destruct (loop W fuel fd fds t) as [t1 o]. simpl in Ht. subst t1.
  set (u := e1 ++ e2) in *.
  assert (Hcl : exists cl : trace,
            (cleanup W pid fd (t ++ u)).1 = t ++ u ++ cl /\
            ((exists k, cl = [Ev (os_kill pid 9) k]) \/
             (exists k c, cl = [Ev (os_kill pid 9) k; Ev (os_close fd) c]))).
  { rewrite cleanup_run. cbv zeta.
    destruct (W unit (length (t ++ u)) (os_kill pid 9)) as [e|[]].
    - destruct (is_ProcessLookupError e); simpl; rewrite <- app_assoc.
      + eexists. split; [reflexivity|]. right. by eexists _, _.
      + eexists. split; [reflexivity|]. left. by eexists.
    - simpl. rewrite <- app_assoc.
      eexists. split; [reflexivity|]. right. by eexists _, _. }
  destruct Hcl as (cl & Hcl & Hshape).
  destruct o as [[]|e| |].
  - exists u, cl. split; [done|]. by split; [|right].
  - exists u, cl. split; [done|]. split; [|by right].
    destruct (is_KeyboardInterrupt e); [done|]. by rewrite then_raise.
  - exists u, []. rewrite !app_nil_r. split; [done|]. split; [done|by left].
  - exists u, []. rewrite !app_nil_r. split; [done|]. split; [done|by left].
Qed.

Lemma loop_call_session (pid fd : Z) (ev : event) :
  loop_call fd ev = true -> session_call pid fd ev = true.
Proof. destruct ev as [T c r]. by destruct c. Qed.


(** X2.  In a session every write to the output stream that returned is
    followed at once by a flush of the stream. *)
Theorem flush_follows_write (fuel : nat) (pid fd : Z) (fds : list Z)
    (t pre post : trace) (b : bytes) (n : nat) :
  (session W fuel pid fd fds t).1 =
    t ++ pre ++ Ev (stdout_buffer_write b) (inr n) :: post ->
  exists (r : result unit) (post' : trace),
    post = Ev stdout_buffer_flush r :: post'.
Proof.
  intros Hrun.
  destruct (session_trace fuel pid fd fds t) as (ext & cl & Hl & Hs & Hcl).
  destruct (loop_extends W (fun ext => flushed ext = true) fd) with
    (fuel := fuel) (fds := fds) (t := t) as (ext' & Hl' & Hfl).
  - done.
  - apply flushed_app.
  - intros fds' t'.
    destruct (iteration_calls W fd fds' t') as (e & He & Hf & _). by exists e.
  - rewrite Hl in Hl'. apply app_inv_head in Hl'. subst ext'.
    rewrite Hs in Hrun. apply app_inv_head in Hrun.
    apply (flushed_next pre post b n). rewrite <- Hrun.
    apply flushed_app; [done|].
    by destruct Hcl as [->|[[k ->]|(k & c & ->)]].
Qed.

(** What a session calls: the calls of the loop, the kill of the child
    with signal 9 and the close of the master. *)
Lemma session_calls (fuel : nat) (pid fd : Z) (fds : list Z) (t : trace) :
  exists ext : trace,
    (session W fuel pid fd fds t).1 = t ++ ext /\
    Forall (fun ev => session_call pid fd ev = true) ext.
Proof.
  destruct (session_trace fuel pid fd fds t) as (ext & cl & Hl & Hs & Hcl).
  destruct (loop_extends W (Forall (fun ev => loop_call fd ev = true)) fd) with
    (fuel := fuel) (fds := fds) (t := t) as (ext' & Hl' & Hall).
  - done.
  - intros a b Ha Hb. by apply Forall_app.
  - intros fds' t'.
    destruct (iteration_calls W fd fds' t') as (e & He & _ & Hc & _). by exists e.
  - rewrite Hl in Hl'. apply app_inv_head in Hl'. subst ext'.
    exists (ext ++ cl). split; [done|]. apply Forall_app. split.
    + eapply Forall_impl; [exact Hall|]. intros ev. apply loop_call_session.
    + destruct Hcl as [->|[[k ->]|(k & c & ->)]]; repeat constructor;
        simpl; by apply bool_decide_eq_true_2.
Qed.

(** X4.  Over a whole session on a master other than descriptor 0, as long
    as every write to the master takes its whole buffer, the master takes
    in order exactly the bytes that the reads of descriptor 0 returned. *)
Theorem input_relay (fuel : nat) (pid fd : Z) (fds : list Z) (t : trace) :
  fd <> 0 ->
  exists ext : trace,
    (session W fuel pid fd fds t).1 = t ++ ext /\
    (Forall (fun ev => whole_write ev = true) ext ->
     forwarded fd ext = delivered ext).
Proof.
  intros Hfd.
  destruct (session_trace fuel pid fd fds t) as (ext & cl & Hl & Hs & Hcl).
  destruct (loop_forwards W fuel fd fds t Hfd) as (ext' & Hl' & Hrel).
  rewrite Hl in Hl'. apply app_inv_head in Hl'. subst ext'.
  exists (ext ++ cl). split; [done|].
  intros [Hall _]%Forall_app.
  rewrite forwarded_app, delivered_app, (Hrel Hall).
  by destruct Hcl as [->|[[k ->]|(k & c & ->)]].
Qed.

(** X5.  An exception that leaves the loop is the exception of the last
    call the loop made, and when it is an [OSError] that call is
    [select]: every [OSError] of another call is caught inside the
    loop. *)
Theorem loop_exceptions (fuel : nat) (fd : Z) (fds : list Z) (t : trace) (e : exn) :
  (loop W fuel fd fds t).2 = Raise e ->
  exists ev : event,
    last (loop W fuel fd fds t).1 = Some ev /\
    raised_by ev = Some e /\
    (is_OSError e = true -> is_select ev = true).
Proof.
  intros Hraise.
  destruct (loop_raise_turn W fuel fd fds t e Hraise) as (fds' & t' & Hit).
  destruct (iteration_calls W fd fds' t') as (ext & Ht & _ & _ & Ho).
  rewrite Hit in Ht, Ho. simpl in Ht, Ho.
  destruct Ho as (ev & Hlast & Hev & Hsel).
  exists ev. rewrite Ht, last_app, Hlast. done.
Qed.

End Sessions.

(** ** Errors inside the loop *)

Section Failures.

Context (W : World).

(** A turn that ends in the [except OSError] clause of a block. *)
Lemma session_handled (fuel : nat) (pid fd : Z) (fds : list Z) (t t' : trace)
    (e : errno) :
  iteration W fd fds t = (t', Ret (handled e, fds)) ->
  session W (S fuel) pid fd fds t =
    match handled e with
    | Break => cleanup W pid fd t'
    | _ => session W fuel pid fd fds t'
    end.
Proof.
  intros Hit. destruct (handled e) eqn:He.
  - by eapply session_next.
  - by eapply session_next.
  - by eapply session_break.
Qed.

Lemma handled_not_next (e : errno) : handled e <> Next.
Proof. unfold handled. by case_bool_decide. Qed.

Lemma on_master_show_oserror (fd : Z) (t : trace) (b : bytes) (e : errno) :
  W _ (length t) (os_read fd 32768) = inr b ->
  length b <> 0%nat ->
  W _ (S (length t)) (stdout_buffer_write b) = inl (OSError e) ->
  on_master W fd t =
    (t ++ [Ev (os_read fd 32768) (inr b);
           Ev (stdout_buffer_write b) (inl (OSError e))],
     Ret (handled e)).
Proof.
  intros Hr Hb Hw. run_step. cbn beta. rewrite Hr. cbn beta iota.
  rewrite bool_decide_eq_false_2 by done.
  rewrite length_snoc, Hw. cbn beta iota. rewrite <- !app_assoc.
  by destruct e.
Qed.

Lemma on_master_flush_oserror (fd : Z) (t : trace) (b : bytes) (n : nat)
    (e : errno) :
  W _ (length t) (os_read fd 32768) = inr b ->
  length b <> 0%nat ->
  W _ (S (length t)) (stdout_buffer_write b) = inr n ->
  W _ (S (S (length t))) stdout_buffer_flush = inl (OSError e) ->
  on_master W fd t =
    (t ++ [Ev (os_read fd 32768) (inr b); Ev (stdout_buffer_write b) (inr n);
           Ev stdout_buffer_flush (inl (OSError e))],
     Ret (handled e)).
Proof.
  intros Hr Hb Hw Hf. run_step. cbn beta. rewrite Hr. cbn beta iota.
  rewrite bool_decide_eq_false_2 by done.
  rewrite length_snoc, Hw. cbn beta iota.
  rewrite !length_snoc, Hf. cbn beta iota. rewrite <- !app_assoc.
  by destruct e.
Qed.

Lemma on_stdin_oserror (fd : Z) (t : trace) (e : errno) :
  W _ (length t) (os_read 0 32768) = inl (OSError e) ->
  on_stdin W fd t =
    (t ++ [Ev (os_read 0 32768) (inl (OSError e))], Ret (handled e)).
Proof.
  intros Hr. run_step. cbn beta. rewrite Hr. cbn beta iota.
  by destruct e.
Qed.

Lemma on_stdin_write_oserror (fd : Z) (t : trace) (b : bytes) (e : errno) :
  W _ (length t) (os_read 0 32768) = inr b ->
  length b <> 0%nat ->
  W _ (S (length t)) (os_write fd b) = inl (OSError e) ->
  on_stdin W fd t =
    (t ++ [Ev (os_read 0 32768) (inr b); Ev (os_write fd b) (inl (OSError e))],
     Ret (handled e)).
Proof.
  intros Hr Hb Hw. run_step. cbn beta. rewrite Hr. cbn beta iota.
  rewrite bool_decide_eq_false_2 by done.
  rewrite length_snoc, Hw. cbn beta iota. rewrite <- !app_assoc.
  by destruct e.
Qed.

Lemma on_control_oserror (fd : Z) (fds : list Z) (t : trace) (e : errno) :
  W _ (length t) (os_read 3 8) = inl (OSError e) ->
  on_control W fd fds t =
    (t ++ [Ev (os_read 3 8) (inl (OSError e))], Ret (handled e, fds)).
Proof.
  intros Hr. run_step. cbn beta. rewrite Hr. cbn beta iota.
  by destruct e.
Qed.

Lemma on_control_ioctl_oserror (fd : Z) (fds : list Z) (t : trace) (buf : bytes)
    (e : errno) :
  W _ (length t) (os_read 3 8) = inr buf ->
  length buf = 8%nat ->
  W _ (S (length t)) (fcntl_ioctl fd TIOCSWINSZ buf) = inl (OSError e) ->
  on_control W fd fds t =
    (t ++ [Ev (os_read 3 8) (inr buf);
           Ev (fcntl_ioctl fd TIOCSWINSZ buf) (inl (OSError e))],
     Ret (handled e, fds)).
Proof.
  intros Hr H8 Hio. run_step. cbn beta. rewrite Hr. cbn beta iota.
  rewrite bool_decide_eq_false_2 by lia.
  rewrite bool_decide_eq_true_2 by done.
  rewrite length_snoc, Hio. cbn beta iota. rewrite <- !app_assoc.
  by destruct e.
Qed.

(** X6.  When the output stream fails: an [OSError] of the write of a
    chunk read from the master, or of the flush after it, is handled like
    one of the read.  For [EINTR] and [EAGAIN] the program goes to the next
    turn, and the chunk is not written again; for any other error number
    (a closed pipe, say) the rest of the run is the [finally] block. *)
Theorem output_failure (fuel : nat) (pid fd : Z) (fds rfds wl xl : list Z)
    (t : trace) (b : bytes) :
  W _ (length t) (select_select fds [] []) = inr (rfds, wl, xl) ->
  fd ∈ rfds ->
  W _ (S (length t)) (os_read fd 32768) = inr b ->
  length b <> 0%nat ->
  let t1 := t ++ [Ev (select_select fds [] []) (inr (rfds, wl, xl));
                  Ev (os_read fd 32768) (inr b)] in
  (forall e : errno,
     W _ (S (S (length t))) (stdout_buffer_write b) = inl (OSError e) ->
     let t' := t1 ++ [Ev (stdout_buffer_write b) (inl (OSError e))] in
     session W (S fuel) pid fd fds t =
       match handled e with
       | Break => cleanup W pid fd t'
       | _ => session W fuel pid fd fds t'
       end) /\
  (forall (n : nat) (e : errno),
     W _ (S (S (length t))) (stdout_buffer_write b) = inr n ->
     W _ (S (S (S (length t)))) stdout_buffer_flush = inl (OSError e) ->
     let t' := t1 ++ [Ev (stdout_buffer_write b) (inr n);
                      Ev stdout_buffer_flush (inl (OSError e))] in
     session W (S fuel) pid fd fds t =
       match handled e with
       | Break => cleanup W pid fd t'
       | _ => session W fuel pid fd fds t'
       end).
Proof.
  intros Hsel Hin Hr Hb t1. split.
  - intros e Hw t'. apply session_handled.
    rewrite iteration_run, Hsel.
    apply dispatch_master; [|apply handled_not_next].
    unfold master_block. rewrite bool_decide_eq_true_2 by done.
    erewrite on_master_show_oserror; [|by rewrite ?length_snoc..].
    subst t' t1. by rewrite <- !app_assoc.
  - intros n e Hw Hf t'. apply session_handled.
    rewrite iteration_run, Hsel.
    apply dispatch_master; [|apply handled_not_next].
    unfold master_block. rewrite bool_decide_eq_true_2 by done.
    erewrite on_master_flush_oserror; [|by rewrite ?length_snoc..].
    subst t' t1. by rewrite <- !app_assoc.
Qed.

(** X7.  When the input side fails: an [OSError] of the read of
    descriptor 0, or of the write to the master of what was read, sends
    the program to the next turn for [EINTR] and [EAGAIN] and to the
    [finally] block for any other error number.  After a failed write the
    bytes that were read are not written again: the master took none of
    them. *)
Theorem input_failure (fuel : nat) (pid fd : Z) (fds rfds wl xl : list Z)
    (t t1 : trace) :
  W _ (length t) (select_select fds [] []) = inr (rfds, wl, xl) ->
  master_block W fd rfds (t ++ [Ev (select_select fds [] []) (inr (rfds, wl, xl))])
    = (t1, Ret Next) ->
  0 ∈ rfds ->
  (forall e : errno,
     W _ (length t1) (os_read 0 32768) = inl (OSError e) ->
     let t' := t1 ++ [Ev (os_read 0 32768) (inl (OSError e))] in
     session W (S fuel) pid fd fds t =
       match handled e with
       | Break => cleanup W pid fd t'
       | _ => session W fuel pid fd fds t'
       end) /\
  (forall (b : bytes) (e : errno),
     W _ (length t1) (os_read 0 32768) = inr b ->
     length b <> 0%nat ->
     W _ (S (length t1)) (os_write fd b) = inl (OSError e) ->
     let ext := [Ev (os_read 0 32768) (inr b);
                 Ev (os_write fd b) (inl (OSError e))] in
     delivered ext = b /\
     forwarded fd ext = [] /\
     session W (S fuel) pid fd fds t =
       match handled e with
       | Break => cleanup W pid fd (t1 ++ ext)
       | _ => session W fuel pid fd fds (t1 ++ ext)
       end).
Proof.
  intros Hsel Hm H0. split.
  - intros e Hr t'. apply session_handled.
    rewrite iteration_run, Hsel.
    eapply dispatch_stdin; [done| |apply handled_not_next].
    unfold stdin_block. rewrite bool_decide_eq_true_2 by done.
    by apply on_stdin_oserror.
  - intros b e Hr Hb Hw ext. split; [|split].
    + unfold delivered. simpl. by rewrite app_nil_r.
    + done.
    + apply session_handled.
      rewrite iteration_run, Hsel.
      eapply dispatch_stdin; [done| |apply handled_not_next].
      unfold stdin_block. rewrite bool_decide_eq_true_2 by done.
      by apply on_stdin_write_oserror.
Qed.

(** X8.  When the control channel fails: an [OSError] of the read of
    descriptor 3, or of the window-size request, sends the program to the
    next turn for [EINTR] and [EAGAIN], with the watch set as it was, and
    to the [finally] block for any other error number; a failed request
    leaves the window size as it was. *)
Theorem control_failure (bo : byteorder) (fuel : nat) (pid fd : Z)
    (fds rfds wl xl : list Z) (t t1 t2 : trace) :
  W _ (length t) (select_select fds [] []) = inr (rfds, wl, xl) ->
  master_block W fd rfds (t ++ [Ev (select_select fds [] []) (inr (rfds, wl, xl))])
    = (t1, Ret Next) ->
  stdin_block W fd rfds t1 = (t2, Ret Next) ->
  3 ∈ rfds ->
  (forall e : errno,
     W _ (length t2) (os_read 3 8) = inl (OSError e) ->
     let t' := t2 ++ [Ev (os_read 3 8) (inl (OSError e))] in
     session W (S fuel) pid fd fds t =
       match handled e with
       | Break => cleanup W pid fd t'
       | _ => session W fuel pid fd fds t'
       end) /\
  (forall (buf : bytes) (e : errno),
     W _ (length t2) (os_read 3 8) = inr buf ->
     length buf = 8%nat ->
     W _ (S (length t2)) (fcntl_ioctl fd TIOCSWINSZ buf) = inl (OSError e) ->
     let t' := t2 ++ [Ev (os_read 3 8) (inr buf);
                      Ev (fcntl_ioctl fd TIOCSWINSZ buf) (inl (OSError e))] in
     window_size bo fd t' = window_size bo fd t2 /\
     session W (S fuel) pid fd fds t =
       match handled e with
       | Break => cleanup W pid fd t'
       | _ => session W fuel pid fd fds t'
       end).
Proof.
  intros Hsel Hm Hs H3.
  pose proof (iteration_control W fd fds rfds wl xl t t1 t2 Hsel Hm Hs H3) as Hit.
  split.
  - intros e Hr t'. apply session_handled. rewrite Hit.
    by apply on_control_oserror.
  - intros buf e Hr H8 Hio t'. split.
    + subst t'.
      replace (t2 ++ [Ev (os_read 3 8) (inr buf);
                      Ev (fcntl_ioctl fd TIOCSWINSZ buf) (inl (OSError e))])
        with ((t2 ++ [Ev (os_read 3 8) (inr buf)]) ++
              [Ev (fcntl_ioctl fd TIOCSWINSZ buf) (inl (OSError e))])
        by by rewrite <- app_assoc.
      by rewrite !window_size_snoc.
    + apply session_handled. rewrite Hit.
      by apply on_control_ioctl_oserror.
Qed.

(** X9.  An exception of [select] is not caught inside the loop, not even
    [EINTR]: the loop is left with it, the [finally] block runs, and unless
    the block itself raises the exception leaves the [try] statement, a
    [KeyboardInterrupt] excepted, which ends it normally. *)
Theorem select_failure (fuel : nat) (pid fd : Z) (fds : list Z) (t : trace)
    (e : exn) :
  W _ (length t) (select_select fds [] []) = inl e ->
  let t' := t ++ [Ev (select_select fds [] []) (inl e)] in
  loop W (S fuel) fd fds t = (t', Raise e) /\
  (session W (S fuel) pid fd fds t).1 = (cleanup W pid fd t').1 /\
  (session W (S fuel) pid fd fds t).2 =
    match (cleanup W pid fd t').2 with
    | Ret _ => if is_KeyboardInterrupt e then Ret tt else Raise e
    | o => o
    end.
Proof.
  intros Hsel t'.
  assert (Hit : iteration W fd fds t = (t', Raise e)).
  { by rewrite iteration_run, Hsel. }
  split.
  { rewrite loop_S. by rewrite Hit. }
  erewrite session_raise by done.
  destruct (is_KeyboardInterrupt e).
  - split; [done|]. by destruct (cleanup W pid fd t') as [? [[]| | |]].
  - by rewrite then_raise.
Qed.

End Failures.

(** ** Before the loop, and a turn with everything ready *)

Section Turn.

Context (W : World).

(** X10.  Nothing is cleaned up before the [try] statement is entered:
    when [pty.fork] raises, or when [os.execve] raises in the child, [main]
    ends with that exception right after the call, so that the child never
    sends a signal to process 0; and when [os.execve] succeeds the program
    is gone. *)
Theorem startup_failure (argv : list string) (environ : gmap string string)
    (fuel : nat) (cmd_path : string) :
  argv !! 1%nat = Some cmd_path ->
  let exec := os_execve cmd_path (drop 1 argv) (child_env environ) in
  (forall e : exn,
     W _ 0%nat pty_fork = inl e ->
     main W argv environ fuel [] = ([Ev pty_fork (inl e)], Raise e)) /\
  (forall (fd : Z) (e : exn),
     W _ 0%nat pty_fork = inr (0, fd) ->
     W _ 1%nat exec = inl e ->
     main W argv environ fuel [] =
       ([Ev pty_fork (inr (0, fd)); Ev exec (inl e)], Raise e)) /\
  (forall fd : Z,
     W _ 0%nat pty_fork = inr (0, fd) ->
     W _ 1%nat exec = inr tt ->
     main W argv environ fuel [] =
       ([Ev pty_fork (inr (0, fd)); Ev exec (inr tt)], Replaced)).
Proof.
  intros Hcmd exec.
  assert (Hlen : ~ (length argv < 2)%nat).
  { apply lookup_lt_Some in Hcmd. lia. }
  assert (Hmain : main W argv environ fuel [] =
            match W _ 0%nat pty_fork with
            | inl e => ([Ev pty_fork (inl e)], Raise e)
            | inr (pid, fd) =>
                if bool_decide (pid = 0) then
                  ([Ev pty_fork (inr (pid, fd)); Ev exec (W _ 1%nat exec)],
                   match W _ 1%nat exec with
                   | inl e => Raise e
                   | inr _ => Replaced
                   end)
                else session W fuel pid fd [fd; 0; 3] [Ev pty_fork (inr (pid, fd))]
            end).
  { unfold main. rewrite bool_decide_eq_false_2 by done.
    unfold index. rewrite Hcmd.
    unfold mbind, M_bind, mret, M_ret, sys, replaced. simpl.
    destruct (W _ 0%nat pty_fork) as [e|[pid fd]]; [done|]. simpl.
    case_bool_decide; [|done]. simpl. fold exec.
    by destruct (W _ 1%nat exec) as [e|[]]. }
  rewrite Hmain. split; [|split].
  - by intros e ->.
  - intros fd e -> ->. done.
  - intros fd -> ->. done.
Qed.

(** X11.  A turn in which [select] reports all three descriptors and every
    call succeeds serves them in the order master, descriptor 0, control
    channel: the chunk of the master is written to the output stream and
    flushed, then the chunk of descriptor 0 is written to the master, then
    the 8 bytes of the control channel go into the window-size request;
    after that comes the next turn, on the same watch set. *)
Theorem busy_turn (fuel : nat) (pid fd : Z) (fds rfds wl xl : list Z) (t : trace)
    (out inp rec v : bytes) (n m : nat) :
  W _ (length t) (select_select fds [] []) = inr (rfds, wl, xl) ->
  fd ∈ rfds -> 0 ∈ rfds -> 3 ∈ rfds ->
  W _ (1 + length t)%nat (os_read fd 32768) = inr out ->
  length out <> 0%nat ->
  W _ (2 + length t)%nat (stdout_buffer_write out) = inr n ->
  W _ (3 + length t)%nat stdout_buffer_flush = inr tt ->
  W _ (4 + length t)%nat (os_read 0 32768) = inr inp ->
  length inp <> 0%nat ->
  W _ (5 + length t)%nat (os_write fd inp) = inr m ->
  W _ (6 + length t)%nat (os_read 3 8) = inr rec ->
  length rec = 8%nat ->
  W _ (7 + length t)%nat (fcntl_ioctl fd TIOCSWINSZ rec) = inr v ->
  session W (S fuel) pid fd fds t =
    session W fuel pid fd fds
      (t ++ [Ev (select_select fds [] []) (inr (rfds, wl, xl));
             Ev (os_read fd 32768) (inr out);
             Ev (stdout_buffer_write out) (inr n);
             Ev stdout_buffer_flush (inr tt);
             Ev (os_read 0 32768) (inr inp);
             Ev (os_write fd inp) (inr m);
             Ev (os_read 3 8) (inr rec);
             Ev (fcntl_ioctl fd TIOCSWINSZ rec) (inr v)]).
Proof.
  intros Hsel Hfd H0 H3 Hr1 Hout Hw1 Hf Hr2 Hinp Hw2 Hr3 Hrec Hio.
  set (t0 := t ++ [Ev (select_select fds [] []) (inr (rfds, wl, xl))]).
  set (t1 := t0 ++ [Ev (os_read fd 32768) (inr out);
                    Ev (stdout_buffer_write out) (inr n);
                    Ev stdout_buffer_flush (inr tt)]).
  set (t2 := t1 ++ [Ev (os_read 0 32768) (inr inp); Ev (os_write fd inp) (inr m)]).
  assert (L0 : length t0 = (1 + length t)%nat).
  { subst t0. rewrite length_app. simpl. lia. }
  assert (L1 : length t1 = (4 + length t)%nat).
  { subst t1. rewrite length_app, L0. simpl. lia. }
  assert (L2 : length t2 = (6 + length t)%nat).
  { subst t2. rewrite length_app, L1. simpl. lia. }
  assert (Hm : master_block W fd rfds t0 = (t1, Ret Next)).
  { unfold master_block. rewrite bool_decide_eq_true_2 by done.
    apply on_master_data; rewrite ?L0; done. }
  assert (Hs : stdin_block W fd rfds t1 = (t2, Ret Next)).
  { unfold stdin_block. rewrite bool_decide_eq_true_2 by done.
    apply on_stdin_data; rewrite ?L1; done. }
  eapply session_next with (f := Next); [|done].
  rewrite (iteration_control W fd fds rfds wl xl t t1 t2 Hsel Hm Hs H3).
  erewrite on_control_record; [|rewrite ?L2; done..].
  subst t2 t1 t0. by rewrite <- !app_assoc.
Qed.

(** X12.  The program does not tell the master from the control channel
    when [pty.fork] hands out descriptor 3 as the master (descriptor 3 was
    not open): a turn that relays a chunk of the master then reads 8 bytes
    from descriptor 3, the master again, and when 8 bytes come they go
    into the window-size request. *)
Theorem master_on_descriptor_three (fuel : nat) (pid : Z) (fds rfds wl xl : list Z)
    (t : trace) (out rec v : bytes) (n : nat) :
  W _ (length t) (select_select fds [] []) = inr (rfds, wl, xl) ->
  3 ∈ rfds -> 0 ∉ rfds ->
  W _ (1 + length t)%nat (os_read 3 32768) = inr out ->
  length out <> 0%nat ->
  W _ (2 + length t)%nat (stdout_buffer_write out) = inr n ->
  W _ (3 + length t)%nat stdout_buffer_flush = inr tt ->
  W _ (4 + length t)%nat (os_read 3 8) = inr rec ->
  length rec = 8%nat ->
  W _ (5 + length t)%nat (fcntl_ioctl 3 TIOCSWINSZ rec) = inr v ->
  session W (S fuel) pid 3 fds t =
    session W fuel pid 3 fds
      (t ++ [Ev (select_select fds [] []) (inr (rfds, wl, xl));
             Ev (os_read 3 32768) (inr out);
             Ev (stdout_buffer_write out) (inr n);
             Ev stdout_buffer_flush (inr tt);
             Ev (os_read 3 8) (inr rec);
             Ev (fcntl_ioctl 3 TIOCSWINSZ rec) (inr v)]).
Proof.
  intros Hsel H3 H0 Hr1 Hout Hw1 Hf Hr3 Hrec Hio.
  set (t0 := t ++ [Ev (select_select fds [] []) (inr (rfds, wl, xl))]).
  set (t1 := t0 ++ [Ev (os_read 3 32768) (inr out);
                    Ev (stdout_buffer_write out) (inr n);
                    Ev stdout_buffer_flush (inr tt)]).
  assert (L0 : length t0 = (1 + length t)%nat).
  { subst t0. rewrite length_app. simpl. lia. }
  assert (L1 : length t1 = (4 + length t)%nat).
  { subst t1. rewrite length_app, L0. simpl. lia. }
  assert (Hm : master_block W 3 rfds t0 = (t1, Ret Next)).
  { unfold master_block. rewrite bool_decide_eq_true_2 by done.
    apply on_master_data; rewrite ?L0; done. }
  assert (Hs : stdin_block W 3 rfds t1 = (t1, Ret Next)).
  { unfold stdin_block. by rewrite bool_decide_eq_false_2. }
  eapply session_next with (f := Next); [|done].
  rewrite (iteration_control W 3 fds rfds wl xl t t1 t1 Hsel Hm Hs H3).
  erewrite on_control_record; [|rewrite ?L1; done..].
  subst t1 t0. by rewrite <- !app_assoc.
Qed.

End Turn.

Section Parent.

Context (W : World).

(** X13.  A turn in which [select] reports none of the three descriptors
    makes no call after [select] and is followed by the next turn, on the
    same watch set. *)
Theorem idle_turn (fuel : nat) (pid fd : Z) (fds rfds wl xl : list Z) (t : trace) :
  W _ (length t) (select_select fds [] []) = inr (rfds, wl, xl) ->
  fd ∉ rfds -> 0 ∉ rfds -> 3 ∉ rfds ->
  session W (S fuel) pid fd fds t =
    session W fuel pid fd fds
      (t ++ [Ev (select_select fds [] []) (inr (rfds, wl, xl))]).
Proof.
  intros Hsel Hfd H0 H3.
  eapply session_next with (f := Next); [|done].
  rewrite iteration_run, Hsel.
  unfold dispatch, master_block, stdin_block, control_block.
  by rewrite !bool_decide_eq_false_2.
Qed.

(** X3.  The parent, from its start to its end, calls [pty.fork] once and
    after it nothing but: [select] for reading only, reads of a chunk from
    the master and from descriptor 0 and of 8 bytes from descriptor 3,
    writes and flushes of the output stream, writes of a buffer that is
    not empty to the master, the window-size request on the master with 8
    bytes, the kill of the child it forked with signal 9 and the close of
    the master.  It never prints and never executes a program. *)
Theorem parent_calls (argv : list string) (environ : gmap string string)
    (fuel : nat) (cmd_path : string) (pid fd : Z) :
  argv !! 1%nat = Some cmd_path ->
  W (Z * Z)%type 0%nat pty_fork = inr (pid, fd) ->
  pid <> 0 ->
  exists ext : trace,
    (main W argv environ fuel []).1 = Ev pty_fork (inr (pid, fd)) :: ext /\
    Forall (fun ev => session_call pid fd ev = true) ext.
Proof.
  intros Hcmd Hfork Hpid.
  rewrite (main_parent W argv environ fuel cmd_path pid fd Hcmd Hfork Hpid).
  destruct (session_calls W fuel pid fd [fd; 0; 3] [Ev pty_fork (inr (pid, fd))])
    as (ext & Ht & Hall).
  exists ext. by rewrite Ht.
Qed.

End Parent.

(** ** Concrete runs of the further properties *)


Lemma flush_follows_write_witness :
  exists (r : result unit) (post' : trace),
    [Ev stdout_buffer_flush (inr tt);
     Ev (select_select [5; 0] [] []) (inr ([0], [], []));
     Ev (os_read 0 32768) (inr ["l"; "s"]%byte);
     Ev (os_write 5 ["l"; "s"]%byte) (inr 2%nat);
     Ev (select_select [5; 0] [] []) (inr ([], [], []))] =
    Ev stdout_buffer_flush r :: post'.
Proof.
  apply (flush_follows_write (scripted control_closed) 4 7 5 [5; 0; 3] started
           [Ev (select_select [5; 0; 3] [] []) (inr ([3], [], []));
            Ev (os_read 3 8) (inr []);
            Ev (select_select [5; 0] [] []) (inr ([5], [], []));
            Ev (os_read 5 32768) (inr ["h"; "i"]%byte)]
           _ ["h"; "i"]%byte 2%nat).
  reflexivity.
Defined.

Lemma parent_calls_witness :
  exists ext : trace,
    (main (scripted control_closed) ["pty-helper.py"; "/bin/sh"] ∅ 4 []).1 =
      Ev pty_fork (inr (7, 5)) :: ext /\
    Forall (fun ev => session_call 7 5 ev = true) ext.
Proof.
  assert (H : 7 <> 0) by discriminate.
  exact (parent_calls (scripted control_closed) ["pty-helper.py"; "/bin/sh"] ∅ 4
           "/bin/sh" 7 5 eq_refl eq_refl H).
Defined.

Lemma input_relay_witness :
  exists ext : trace,
    (session (scripted control_closed) 4 7 5 [5; 0; 3] started).1 = started ++ ext /\
    (Forall (fun ev => whole_write ev = true) ext ->
     forwarded 5 ext = delivered ext).
Proof.
  assert (H : 5 <> 0) by discriminate.
  exact (input_relay (scripted control_closed) 4 7 5 [5; 0; 3] started H).
Defined.

Lemma loop_exceptions_witness :
  exists ev : event,
    last (loop (scripted select_refused) 2 5 [5; 0; 3] started).1 = Some ev /\
    raised_by ev = Some (OSError EBADF) /\
    (is_OSError (OSError EBADF) = true -> is_select ev = true).
Proof.
  exact (loop_exceptions (scripted select_refused) 2 5 [5; 0; 3] started
           (OSError EBADF) eq_refl).
Defined.

Lemma output_failure_witness :
  session (scripted output_closed) 2 7 5 [5; 0; 3] started =
    cleanup (scripted output_closed) 7 5
      (started ++ [Ev (select_select [5; 0; 3] [] []) (inr ([5], [], []));
                   Ev (os_read 5 32768) (inr ["h"; "i"]%byte);
                   Ev (stdout_buffer_write ["h"; "i"]%byte) (inl (OSError EPIPE))]).
Proof.
  assert (Hin : 5 ∈ [5]) by compute_done.
  assert (Hb : length ["h"; "i"]%byte <> 0%nat) by discriminate.
  destruct (output_failure (scripted output_closed) 1 7 5 [5; 0; 3] [5] [] []
              started ["h"; "i"]%byte eq_refl Hin eq_refl Hb) as [H _].
  rewrite (H EPIPE eq_refl). by rewrite <- app_assoc.
Defined.

Lemma input_failure_witness :
  forwarded 5 [Ev (os_read 0 32768) (inr ["l"; "s"]%byte);
               Ev (os_write 5 ["l"; "s"]%byte) (inl (OSError EAGAIN))] = [] /\
  session (scripted input_blocked) 2 7 5 [5; 0; 3] started =
    session (scripted input_blocked) 1 7 5 [5; 0; 3]
      ((started ++ [Ev (select_select [5; 0; 3] [] []) (inr ([0], [], []))]) ++
       [Ev (os_read 0 32768) (inr ["l"; "s"]%byte);
        Ev (os_write 5 ["l"; "s"]%byte) (inl (OSError EAGAIN))]).
Proof.
  assert (Hin : 0 ∈ [0]) by compute_done.
  assert (Hb : length ["l"; "s"]%byte <> 0%nat) by discriminate.
  destruct (input_failure (scripted input_blocked) 1 7 5 [5; 0; 3] [0] [] []
              started _ eq_refl eq_refl Hin) as [_ H].
  destruct (H ["l"; "s"]%byte EAGAIN eq_refl Hb eq_refl) as (_ & Hfw & Hgo).
  split; [exact Hfw|exact Hgo].
Defined.

Lemma control_failure_witness :
  session (scripted resize_refused) 2 7 5 [5; 0; 3] started =
    cleanup (scripted resize_refused) 7 5
      ((started ++ [Ev (select_select [5; 0; 3] [] []) (inr ([3], [], []))]) ++
       [Ev (os_read 3 8) (inr (pack_winsize LittleEndian (Winsize 24 80 0 0)));
        Ev (fcntl_ioctl 5 TIOCSWINSZ (pack_winsize LittleEndian (Winsize 24 80 0 0)))
           (inl (OSError ENOTTY))]).
Proof.
  assert (Hin : 3 ∈ [3]) by compute_done.
  destruct (control_failure (scripted resize_refused) LittleEndian 1 7 5 [5; 0; 3]
              [3] [] [] started _ _ eq_refl eq_refl eq_refl Hin) as [_ H].
  destruct (H _ ENOTTY eq_refl eq_refl eq_refl) as [_ Hgo].
  exact Hgo.
Defined.

Lemma select_failure_witness :
  loop (scripted select_refused) 2 5 [5; 0; 3] started =
    (started ++ [Ev (select_select [5; 0; 3] [] []) (inl (OSError EBADF))],
     Raise (OSError EBADF)) /\
  (session (scripted select_refused) 2 7 5 [5; 0; 3] started).2 =
    Raise (OSError EBADF).
Proof.
  destruct (select_failure (scripted select_refused) 1 7 5 [5; 0; 3] started
              (OSError EBADF) eq_refl) as (Hloop & _ & Hout).
  split; [exact Hloop|]. rewrite Hout. reflexivity.
Defined.

Lemma startup_failure_witness :
  main (scripted exec_refused) ["pty-helper.py"; "/bin/sh"] ∅ 3 [] =
    ([Ev pty_fork (inr (0, 5));
      Ev (os_execve "/bin/sh" ["/bin/sh"] (child_env ∅)) (inl (OSError EPERM))],
     Raise (OSError EPERM)).
Proof.
  destruct (startup_failure (scripted exec_refused) ["pty-helper.py"; "/bin/sh"] ∅ 3
              "/bin/sh" eq_refl) as (_ & H & _).
  exact (H 5 (OSError EPERM) eq_refl eq_refl).
Defined.

Lemma busy_turn_witness :
  session (scripted all_ready) 2 7 5 [5; 0; 3] started =
    session (scripted all_ready) 1 7 5 [5; 0; 3]
      (started ++
       [Ev (select_select [5; 0; 3] [] []) (inr ([5; 0; 3], [], []));
        Ev (os_read 5 32768) (inr ["h"; "i"]%byte);
        Ev (stdout_buffer_write ["h"; "i"]%byte) (inr 2%nat);
        Ev stdout_buffer_flush (inr tt);
        Ev (os_read 0 32768) (inr ["l"; "s"]%byte);
        Ev (os_write 5 ["l"; "s"]%byte) (inr 2%nat);
        Ev (os_read 3 8) (inr (pack_winsize LittleEndian (Winsize 24 80 0 0)));
        Ev (fcntl_ioctl 5 TIOCSWINSZ (pack_winsize LittleEndian (Winsize 24 80 0 0)))
           (inr (pack_winsize LittleEndian (Winsize 24 80 0 0)))]).
Proof.
  apply (busy_turn (scripted all_ready) 1 7 5 [5; 0; 3] [5; 0; 3] [] [] started);
    first [reflexivity | discriminate | compute_done].
Defined.

Lemma master_on_descriptor_three_witness :
  session (scripted master_three) 2 7 3 [3; 0; 3] [Ev pty_fork (inr (7, 3))] =
    session (scripted master_three) 1 7 3 [3; 0; 3]
      ([Ev pty_fork (inr (7, 3))] ++
       [Ev (select_select [3; 0; 3] [] []) (inr ([3], [], []));
        Ev (os_read 3 32768) (inr ["h"; "i"]%byte);
        Ev (stdout_buffer_write ["h"; "i"]%byte) (inr 2%nat);
        Ev stdout_buffer_flush (inr tt);
        Ev (os_read 3 8) (inr ["0"; "1"; "2"; "3"; "4"; "5"; "6"; "7"]%byte);
        Ev (fcntl_ioctl 3 TIOCSWINSZ ["0"; "1"; "2"; "3"; "4"; "5"; "6"; "7"]%byte)
           (inr ["0"; "1"; "2"; "3"; "4"; "5"; "6"; "7"]%byte)]).
Proof.
  apply (master_on_descriptor_three (scripted master_three) 1 7 [3; 0; 3] [3] [] []
           [Ev pty_fork (inr (7, 3))]);
    first [reflexivity | discriminate | compute_done].
Defined.

Lemma idle_turn_witness :
  session (scripted nothing_ready) 2 7 5 [5; 0; 3] started =
    session (scripted nothing_ready) 1 7 5 [5; 0; 3]
      (started ++ [Ev (select_select [5; 0; 3] [] []) (inr ([], [], []))]).
Proof.
  apply (idle_turn (scripted nothing_ready) 1 7 5 [5; 0; 3] [] [] [] started);
    first [reflexivity | compute_done].
Defined.
